(** * TempHumidityMonitor: a shallow embedding of [TempHumidityMonitor.py]

    The script reads a DHT11 sensor and writes the two readings to two
    holding registers of a SmartDisplay over Modbus, for ever.  The
    embedding keeps the three functions of the source
    ([show_current_values], [parse_commandline], [main]) and makes their
    effects explicit: every call into a library (sensor, minimalmodbus,
    [print], [time.sleep]) is recorded in a trace of events, and what the
    library answers is read from an explicit description of the outside
    world. *)

From Stdlib Require Import ZArith QArith List String Ascii Bool Lia.
Import ListNotations.

Local Open Scope string_scope.
Local Open Scope list_scope.
Local Open Scope Z_scope.

(** ** Python exceptions

    The handlers of [main] select by class ([except RuntimeError],
    [except Exception]), so an exception is represented by its class and
    the classes by their place in the hierarchy.  The Modbus classes are
    those of minimalmodbus, all below [IOError] (= [OSError]). *)

Inductive exc_class : Type :=
  | BaseException
  | SystemExit
  | KeyboardInterrupt
  | PyException
  | RuntimeError
  | NotImplementedError
  | RecursionError
  | ValueError
  | TypeError
  | NameError
  | UnboundLocalError
  | OSError
  | ModbusException
  | MasterReportedException
  | NoResponseError
  | InvalidResponseError
  | SlaveReportedException
  | IllegalRequestError.

Definition exc_class_eqb (a b : exc_class) : bool :=
  match a, b with
  | BaseException, BaseException
  | SystemExit, SystemExit
  | KeyboardInterrupt, KeyboardInterrupt
  | PyException, PyException
  | RuntimeError, RuntimeError
  | NotImplementedError, NotImplementedError
  | RecursionError, RecursionError
  | ValueError, ValueError
  | TypeError, TypeError
  | NameError, NameError
  | UnboundLocalError, UnboundLocalError
  | OSError, OSError
  | ModbusException, ModbusException
  | MasterReportedException, MasterReportedException
  | NoResponseError, NoResponseError
  | InvalidResponseError, InvalidResponseError
  | SlaveReportedException, SlaveReportedException
  | IllegalRequestError, IllegalRequestError => true
  | _, _ => false
  end.

(** The direct base class; [BaseException] is the root. *)
Definition base_class (c : exc_class) : option exc_class :=
  match c with
  | BaseException => None
  | SystemExit | KeyboardInterrupt | PyException => Some BaseException
  | RuntimeError | ValueError | TypeError | NameError | OSError =>
      Some PyException
  | NotImplementedError | RecursionError => Some RuntimeError
  | UnboundLocalError => Some NameError
  | ModbusException => Some OSError
  | MasterReportedException | SlaveReportedException => Some ModbusException
  | NoResponseError | InvalidResponseError => Some MasterReportedException
  | IllegalRequestError => Some SlaveReportedException
  end.

Fixpoint issubclass_upto (depth : nat) (c k : exc_class) : bool :=
  exc_class_eqb c k ||
  match depth with
  | O => false
  | S d =>
      match base_class c with
      | Some b => issubclass_upto d b k
      | None => false
      end
  end.

(** No class lies more than five steps below the root. *)
Definition issubclass (c k : exc_class) : bool := issubclass_upto 5 c k.

(** An exception object, by its class; [isinstance] is what an [except]
    clause tests. *)
Definition exc : Type := exc_class.
Definition isinstance (e : exc) (k : exc_class) : bool := issubclass e k.
Arguments isinstance : simpl never.

(** The result of a Python call: a value, or a raised exception. *)
Inductive pyresult (A : Type) : Type :=
  | Ok (a : A)
  | Raise (e : exc).
Arguments Ok {A} a.
Arguments Raise {A} e.

(** ** Module constants (source lines 64-74) *)

Definition SLAVE_ADDRESS : Z := 0x7B.
Definition TIMEOUT : Q := 0.3%Q.
Definition VALUE_MAPPING_ADDRESS : Z := 2000.
Definition DEFAULT_PORT_NAME : string := "/dev/ttyUSB0".
Definition DEFAULT_BAUDRATE : Z := 115200.
Definition TEMP_ADDRESS : Z := 1 * 100 + 6.
Definition HUMIDITY_ADDRESS : Z := 3 * 100 + 6.

(** The constants stay folded when a proof simplifies the program. *)
Arguments SLAVE_ADDRESS : simpl never.
Arguments TIMEOUT : simpl never.
Arguments DEFAULT_PORT_NAME : simpl never.
Arguments DEFAULT_BAUDRATE : simpl never.
Arguments TEMP_ADDRESS : simpl never.
Arguments HUMIDITY_ADDRESS : simpl never.

(** The pin object [board.D12] is only handed to the sensor driver. *)
Inductive pin : Type := D12.
Definition DHT_PIN : pin := D12.

(** The two framing modes of minimalmodbus. *)
Inductive modbus_mode : Type := MODE_RTU | MODE_ASCII.

(** The delay of [time.sleep(2.0)] at the end of the loop body. *)
Definition SLEEP_SECONDS : Q := 2.0%Q.
Arguments SLEEP_SECONDS : simpl never.

(** The documented lower bound of the timeout (comment of line 65:
    at least 0.3 seconds for 2400 bits/s ASCII mode). *)
Definition MINIMUM_TIMEOUT_ASCII_2400 : Q := 0.3%Q.

(** ** Values, events and the outside world *)

(** What the sensor properties return: an integer reading, or [None]
    when the driver has no reading to give. *)
Inductive value : Type :=
  | VInt (z : Z)
  | VNone.

(** One entry per call that leaves the script, in program order. *)
Inductive event : Type :=
  | EvPrint (line : string)
  | EvInstrument (portname : string) (slaveaddress : Z) (mode : modbus_mode)
  | EvSetTimeout (seconds : Q)
  | EvSetBaudrate (baudrate : Z)
  | EvDHT11 (p : pin)
  | EvTemperature
  | EvHumidity
  | EvWriteRegister (registeraddress : Z) (v : value)
  | EvSleep (seconds : Q).

(** What the libraries answer during one pass through the loop body. *)
Record cycle_world : Type := {
  temperature_result : pyresult value;
  humidity_result : pyresult value;
  write_register_result : Z -> value -> pyresult unit;
  sleep_result : pyresult unit
}.

(** The whole outside world of one run: the constructor of the
    instrument ([Ok true]: [inst.serial] is not [None]), the two
    assignments to attributes of the serial port, the constructor of the
    sensor, and the answers of every pass, by pass number. *)
Record world : Type := {
  Instrument_result : string -> Z -> modbus_mode -> pyresult bool;
  set_timeout_result : Q -> pyresult unit;
  set_baudrate_result : Z -> pyresult unit;
  DHT11_result : pin -> pyresult unit;
  cycle_of : nat -> cycle_world
}.

(** ** A monad for local variables, the trace and exceptions

    A computation starts from the local variables [L], and yields the
    events it emitted, the local variables it leaves (also when it
    raises: an assignment made before the exception stays made) and its
    result. *)

Definition M (L A : Type) : Type := L -> list event * L * pyresult A.

Definition ret {L A} (a : A) : M L A := fun l => ([], l, Ok a).

Definition bind {L A B} (m : M L A) (f : A -> M L B) : M L B :=
  fun l =>
    match m l with
    | (t, l', Ok a) =>
        match f a l' with
        | (t', l'', r) => (t ++ t', l'', r)
        end
    | (t, l', Raise e) => (t, l', Raise e)
    end.

Definition raise {L A} (e : exc) : M L A := fun l => ([], l, Raise e).

(** A call into a library: the event, then what the world answers. *)
Definition call {L A} (ev : event) (answer : pyresult A) : M L A :=
  fun l => ([ev], l, answer).

Definition modify {L} (f : L -> L) : M L unit := fun l => ([], f l, Ok tt).

Declare Scope py_scope.
Delimit Scope py_scope with py.
Notation "x <- m ;; k" := (bind m (fun x => k))
  (at level 61, m at next level, right associativity) : py_scope.
Notation "m ;;; k" := (bind m (fun _ => k))
  (at level 61, right associativity) : py_scope.
Local Open Scope py_scope.

Definition trace_of {L A} (r : list event * L * pyresult A) : list event :=
  fst (fst r).
Definition locals_of {L A} (r : list event * L * pyresult A) : L :=
  snd (fst r).
Definition result_of {L A} (r : list event * L * pyresult A) : pyresult A :=
  snd r.

(** [for x in xs: body] *)
Fixpoint for_each {L A} (xs : list A) (body : A -> M L unit) : M L unit :=
  match xs with
  | [] => ret tt
  | x :: rest => body x ;;; for_each rest body
  end.

(** ** Strings, as the command line uses them

    All the script asks of an argument is whether it starts with an
    ASCII prefix, whether it is shorter than three characters once it is
    known to start with a two-character ASCII prefix, and what follows
    those two characters; on these questions bytes and code points
    agree. *)

Definition startswith (s p : string) : bool := String.prefix p s.
Definition len (s : string) : nat := String.length s.
(** [s[n:]] *)
Definition slice_from (n : nat) (s : string) : string :=
  substring n (len s - n) s.

Definition print {L} (line : string) : M L unit := call (EvPrint line) (Ok tt).
(** [sys.exit()] raises [SystemExit]. *)
Definition sys_exit {L A} : M L A := raise SystemExit.

(** ** [try] / [except]

    The handlers are tried in order; the first whose class the exception
    is an instance of runs, and an exception none of them matches goes
    on to the caller. *)

Fixpoint select_handler {L A}
    (handlers : list (exc_class * (exc -> M L A))) (error : exc) : M L A :=
  match handlers with
  | [] => raise error
  | (k, h) :: rest =>
      if isinstance error k then h error else select_handler rest error
  end.

Definition try_except {L A}
    (body : M L A) (handlers : list (exc_class * (exc -> M L A))) : M L A :=
  fun l =>
    match body l with
    | (t, l', Ok a) => (t, l', Ok a)
    | (t, l', Raise error) =>
        match select_handler handlers error l' with
        | (t', l'', r) => (t ++ t', l'', r)
        end
    end.

(** ** [while True]

    The loop has no exit of its own: it ends only when its body raises.
    After [fuel] passes the model stops looking and reports [Running]. *)

Inductive outcome : Type :=
  | Running
  | Returned
  | Raised (e : exc).

Fixpoint while_true {L} (fuel : nat) (body : nat -> M L unit) (i : nat)
    (l : L) : list event * L * outcome :=
  match fuel with
  | O => ([], l, Running)
  | S fuel' =>
      match body i l with
      | (t, l', Ok _) =>
          match while_true fuel' body (S i) l' with
          | (t', l'', o) => (t ++ t', l'', o)
          end
      | (t, l', Raise e) => (t, l', Raised e)
      end
  end.

(** ** [show_current_values] (source lines 76-78) *)

Definition write_register {L} (w : cycle_world) (registeraddress : Z)
    (v : value) : M L unit :=
  call (EvWriteRegister registeraddress v)
       (write_register_result w registeraddress v).

Definition show_current_values {L} (w : cycle_world) (temp humidity : value)
    : M L unit :=
  write_register w TEMP_ADDRESS temp ;;;
  write_register w HUMIDITY_ADDRESS humidity.

(** ** [parse_commandline] (source lines 80-104) *)

(** The three local variables the loop over [argv] updates. *)
Record parse_locals : Type := {
  mode : modbus_mode;
  baudrate : Z;
  portname : string
}.

Definition set_mode (m : modbus_mode) (l : parse_locals) : parse_locals :=
  {| mode := m; baudrate := baudrate l; portname := portname l |}.
Definition set_baudrate (b : Z) (l : parse_locals) : parse_locals :=
  {| mode := mode l; baudrate := b; portname := portname l |}.
Definition set_portname (p : string) (l : parse_locals) : parse_locals :=
  {| mode := mode l; baudrate := baudrate l; portname := p |}.

Definition usage_b : string := "Wrong usage of the -b option. Use -b9600".
Definition usage_D : string :=
  "Wrong usage of the -D option. Use -D/dev/ttyUSB0 or -DCOM4".

Section CommandLine.

(** Python's built-in [int] on a string: the integer it denotes, or
    [None] where the built-in raises [ValueError]. *)
Variable int : string -> option Z.

Definition call_int {L} (s : string) : M L Z :=
  match int s with
  | Some n => ret n
  | None => raise ValueError
  end.

(** The body of [for arg in argv]. *)
Definition parse_arg (arg : string) : M parse_locals unit :=
  if startswith arg "-ascii" then
    modify (set_mode MODE_ASCII)
  else if startswith arg "-rtu" then
    modify (set_mode MODE_RTU)
  else if startswith arg "-b" then
    (if (len arg <? 3)%nat
     then print usage_b ;;; sys_exit
     else ret tt) ;;;
    n <- call_int (slice_from 2 arg) ;;
    modify (set_baudrate n)
  else if startswith arg "-D" then
    (if (len arg <? 3)%nat
     then print usage_D ;;; sys_exit
     else ret tt) ;;;
    modify (set_portname (slice_from 2 arg))
  else
    ret tt.

Definition parse_commandline (argv : list string)
    : list event * pyresult (string * modbus_mode * Z) :=
  match for_each argv parse_arg
          {| mode := MODE_RTU;
             baudrate := DEFAULT_BAUDRATE;
             portname := DEFAULT_PORT_NAME |} with
  | (t, l, Ok _) => (t, Ok (portname l, mode l, baudrate l))
  | (t, _, Raise e) => (t, Raise e)
  end.

End CommandLine.

(** ** The loop of [main] (source lines 118-127) *)

(** The local variables the loop assigns; [None] is "not yet bound". *)
Record loop_locals : Type := {
  temp : option value;
  humidity : option value
}.

Definition set_temp (v : value) (l : loop_locals) : loop_locals :=
  {| temp := Some v; humidity := humidity l |}.
Definition set_humidity (v : value) (l : loop_locals) : loop_locals :=
  {| temp := temp l; humidity := Some v |}.

(** Reading a local variable; an unbound one raises. *)
Definition load (var : loop_locals -> option value) : M loop_locals value :=
  fun l =>
    match var l with
    | Some v => ([], l, Ok v)
    | None => ([], l, Raise UnboundLocalError)
    end.

(** How the statement after [try] is reached. *)
Inductive flow : Type :=
  | FallThrough
  | Continue.

(** The three statements under [try:]. *)
Definition try_block (w : cycle_world) : M loop_locals unit :=
  t <- call EvTemperature (temperature_result w) ;;
  modify (set_temp t) ;;;
  h <- call EvHumidity (humidity_result w) ;;
  modify (set_humidity h) ;;;
  t' <- load temp ;;
  h' <- load humidity ;;
  show_current_values w t' h'.

Definition time_sleep {L} (w : cycle_world) (seconds : Q) : M L unit :=
  call (EvSleep seconds) (sleep_result w).

(** One pass through the body of [while True:]. *)
Definition loop_body (w : cycle_world) : M loop_locals unit :=
  f <- try_except
         (try_block w ;;; ret FallThrough)
         [ (RuntimeError, fun error => ret Continue);
           (PyException, fun error => raise error) ] ;;
  match f with
  | Continue => ret tt
  | FallThrough => time_sleep w SLEEP_SECONDS
  end.

(** ** [main] (source lines 107-127) *)

Definition lift {L A} (r : list event * pyresult A) : M L A :=
  fun l => (fst r, l, snd r).

(** Lines 108-117; [Ok false] is the early [return] of line 113. *)
Definition before_loop (int : string -> option Z) (env : world)
    (argv : list string) : M loop_locals bool :=
  args <- lift (parse_commandline int argv) ;;
  let '(portname, mode, baudrate) := args in
  has_serial <- call (EvInstrument portname SLAVE_ADDRESS mode)
                     (Instrument_result env portname SLAVE_ADDRESS mode) ;;
  if negb has_serial then
    print "Instrument.serial is None" ;;;
    ret false
  else
    call (EvSetTimeout TIMEOUT) (set_timeout_result env TIMEOUT) ;;;
    call (EvSetBaudrate baudrate) (set_baudrate_result env baudrate) ;;;
    call (EvDHT11 DHT_PIN) (DHT11_result env DHT_PIN) ;;;
    ret true.

Definition main (int : string -> option Z) (fuel : nat) (env : world)
    (argv : list string) : list event * outcome :=
  match before_loop int env argv {| temp := None; humidity := None |} with
  | (t, _, Raise e) => (t, Raised e)
  | (t, _, Ok false) => (t, Returned)
  | (t, l, Ok true) =>
      match while_true fuel (fun i => loop_body (cycle_of env i)) 0 l with
      | (t', _, o) => (t ++ t', o)
      end
  end.

(** ** The built-in [int] on ASCII text

    Used to run the model on concrete command lines: optional white
    space around, an optional sign, then decimal digits, where single
    underscores may separate digits.  The theorems below do not depend
    on it: they hold for whatever [int] does. *)

Definition is_space (c : ascii) : bool :=
  let n := nat_of_ascii c in
  ((9 <=? n) && (n <=? 13) || (n =? 32))%nat.

Definition digit_of (c : ascii) : option Z :=
  let n := nat_of_ascii c in
  if ((48 <=? n) && (n <=? 57))%nat then Some (Z.of_nat (n - 48)) else None.

Fixpoint all_space (s : string) : bool :=
  match s with
  | EmptyString => true
  | String c rest => is_space c && all_space rest
  end.

(** [after_digit]: the character before was a digit. *)
Fixpoint int_digits (acc : Z) (after_digit : bool) (s : string) : option Z :=
  match s with
  | EmptyString => if after_digit then Some acc else None
  | String c rest =>
      match digit_of c with
      | Some d => int_digits (10 * acc + d) true rest
      | None =>
          if after_digit then
            if Ascii.eqb c "_" then int_digits acc false rest
            else if all_space s then Some acc else None
          else None
      end
  end.

Definition int_signed (s : string) : option Z :=
  match s with
  | String "-" rest => option_map Z.opp (int_digits 0 false rest)
  | String "+" rest => int_digits 0 false rest
  | _ => int_digits 0 false s
  end.

Fixpoint int_ascii (s : string) : option Z :=
  match s with
  | String c rest => if is_space c then int_ascii rest else int_signed s
  | EmptyString => None
  end.

(** ** Sample worlds, to run the model *)

Definition all_fine : cycle_world :=
  {| temperature_result := Ok (VInt 23);
     humidity_result := Ok (VInt 41);
     write_register_result := fun _ _ => Ok tt;
     sleep_result := Ok tt |}.

Definition temperature_raises (e : exc) : cycle_world :=
  {| temperature_result := Raise e;
     humidity_result := Ok (VInt 41);
     write_register_result := fun _ _ => Ok tt;
     sleep_result := Ok tt |}.

Definition humidity_raises (e : exc) : cycle_world :=
  {| temperature_result := Ok (VInt 23);
     humidity_result := Raise e;
     write_register_result := fun _ _ => Ok tt;
     sleep_result := Ok tt |}.

(** The write to register [a] raises [e]; the other one succeeds. *)
Definition write_raises (a : Z) (e : exc) : cycle_world :=
  {| temperature_result := Ok (VInt 23);
     humidity_result := Ok (VInt 41);
     write_register_result :=
       fun a' _ => if a' =? a then Raise e else Ok tt;
     sleep_result := Ok tt |}.

Definition steady_world (c : nat -> cycle_world) : world :=
  {| Instrument_result := fun _ _ _ => Ok true;
     set_timeout_result := fun _ => Ok tt;
     set_baudrate_result := fun _ => Ok tt;
     DHT11_result := fun _ => Ok tt;
     cycle_of := c |}.

Definition unbound : loop_locals := {| temp := None; humidity := None |}.

(** * Properties *)

(** What a run shows to the outside: its events and how it ended; the
    local variables it leaves are dropped. *)
Definition behaviour {L A} (r : list event * L * A) : list event * A :=
  (fst (fst r), snd r).

(** The sampling step of a pass: both readings, or the exception of the
    first property that raises. *)
Definition sample (w : cycle_world) : pyresult (value * value) :=
  match temperature_result w with
  | Raise e => Raise e
  | Ok t =>
      match humidity_result w with
      | Raise e => Raise e
      | Ok h => Ok (t, h)
      end
  end.

(** The calls of one pass, in order, and which of them raises [e]:
    every call before it returned. *)
Inductive raises_in_pass (w : cycle_world) (e : exc) : Prop :=
  | in_temperature :
      temperature_result w = Raise e -> raises_in_pass w e
  | in_humidity : forall t,
      temperature_result w = Ok t ->
      humidity_result w = Raise e -> raises_in_pass w e
  | in_write_temperature : forall t h,
      sample w = Ok (t, h) ->
      write_register_result w TEMP_ADDRESS t = Raise e ->
      raises_in_pass w e
  | in_write_humidity : forall t h,
      sample w = Ok (t, h) ->
      write_register_result w TEMP_ADDRESS t = Ok tt ->
      write_register_result w HUMIDITY_ADDRESS h = Raise e ->
      raises_in_pass w e
  | in_sleep : forall t h,
      sample w = Ok (t, h) ->
      write_register_result w TEMP_ADDRESS t = Ok tt ->
      write_register_result w HUMIDITY_ADDRESS h = Ok tt ->
      sleep_result w = Raise e ->
      raises_in_pass w e.

(** The loop started by [main] in the world [env]. *)
Definition polling_loop (fuel : nat) (env : world) (i : nat) (l : loop_locals)
    : list event * loop_locals * outcome :=
  while_true fuel (fun j => loop_body (cycle_of env j)) i l.

(** An argument one of the four branches of [parse_commandline] takes. *)
Definition recognized (arg : string) : bool :=
  startswith arg "-ascii" || startswith arg "-rtu" ||
  startswith arg "-b" || startswith arg "-D".

(** A run that printed one of the two usage messages, did nothing else,
    and ended by [sys.exit()]. *)
Definition usage_exit (r : list event * outcome) : Prop :=
  exists m, (m = usage_b \/ m = usage_D) /\
            r = ([EvPrint m], Raised SystemExit).

(** The events of a pass in which every call returns. *)
Definition full_pass (t h : value) : list event :=
  [EvTemperature; EvHumidity;
   EvWriteRegister TEMP_ADDRESS t; EvWriteRegister HUMIDITY_ADDRESS h;
   EvSleep SLEEP_SECONDS].

Definition is_write_to (a : Z) (ev : event) : bool :=
  match ev with
  | EvWriteRegister a' _ => a' =? a
  | _ => false
  end.

(** A check on a trace: every write to [HUMIDITY_ADDRESS] comes directly
    after a write to [TEMP_ADDRESS]; [after_temp] tells whether the event
    before the trace was such a write. *)
Fixpoint humidity_after_temperature (after_temp : bool) (tr : list event)
    : bool :=
  match tr with
  | [] => true
  | ev :: rest =>
      (negb (is_write_to HUMIDITY_ADDRESS ev) || after_temp) &&
      humidity_after_temperature (is_write_to TEMP_ADDRESS ev) rest
  end.

(** The local variables [parse_commandline] starts from. *)
Definition parse_start : parse_locals :=
  {| mode := MODE_RTU; baudrate := DEFAULT_BAUDRATE;
     portname := DEFAULT_PORT_NAME |}.

Ltac unfold_pass :=
  unfold loop_body, try_except, try_block, show_current_values,
    write_register, time_sleep, bind, call, modify, load, ret, raise,
    trace_of, result_of, locals_of, behaviour;
  cbn [select_handler].

(** Membership in an explicit list, one element at a time. *)
Ltac in_cases :=
  let H := fresh "Hin" in
  cbn [In]; intros H;
  repeat (destruct H as [<- | H]; [ eauto 10 | ]);
  destruct H.

(** ** The body of the loop, case by case *)

Lemma sample_ok w t h :
  sample w = Ok (t, h) ->
  temperature_result w = Ok t /\ humidity_result w = Ok h.
Proof.
  unfold sample.
  destruct (temperature_result w); [ | discriminate ].
  destruct (humidity_result w); [ | discriminate ].
  intros H; injection H; intros; subst; auto.
Qed.

Lemma sample_raise w e :
  sample w = Raise e ->
  temperature_result w = Raise e \/
  exists t, temperature_result w = Ok t /\ humidity_result w = Raise e.
Proof.
  unfold sample.
  destruct (temperature_result w) as [t | e1].
  - destruct (humidity_result w); [ discriminate | ].
    intros H; injection H; intros; subst; eauto.
  - intros H; injection H; intros; subst; auto.
Qed.

(** The sensor raises a [RuntimeError]: only the reads happen. *)
Lemma pass_sample_transient w l e :
  sample w = Raise e ->
  isinstance e RuntimeError = true ->
  result_of (loop_body w l) = Ok tt /\
  (trace_of (loop_body w l) = [EvTemperature] \/
   trace_of (loop_body w l) = [EvTemperature; EvHumidity]).
Proof.
  intros Hs He.
  destruct (sample_raise _ _ Hs) as [Ht | [t [Ht Hh]]]; unfold_pass.
  - rewrite Ht; cbn. rewrite He; cbn. auto.
  - rewrite Ht; cbn. rewrite Hh; cbn. rewrite He; cbn. auto.
Qed.

(** The exception of a pass is one of the calls' exceptions. *)
Lemma pass_raise_inv w l e :
  result_of (loop_body w l) = Raise e ->
  raises_in_pass w e /\
  (isinstance e RuntimeError = false \/
   exists t h, sample w = Ok (t, h) /\
     write_register_result w TEMP_ADDRESS t = Ok tt /\
     write_register_result w HUMIDITY_ADDRESS h = Ok tt /\
     sleep_result w = Raise e).
Proof.
  unfold_pass.
  destruct (temperature_result w) as [t | et] eqn:Et; cbn.
  - destruct (humidity_result w) as [h | eh] eqn:Eh; cbn.
    + assert (Hs : sample w = Ok (t, h))
        by (unfold sample; rewrite Et, Eh; reflexivity).
      destruct (write_register_result w TEMP_ADDRESS t) as [[] | e1] eqn:E1;
        cbn.
      * destruct (write_register_result w HUMIDITY_ADDRESS h)
          as [[] | e2] eqn:E2; cbn.
        -- destruct (sleep_result w) as [[] | e3] eqn:E3; cbn;
             [ discriminate | ].
           intros H; injection H; intros; subst.
           split; [ eapply in_sleep; eauto | right; eauto 10 ].
        -- destruct (isinstance e2 RuntimeError) eqn:I2; cbn;
             [ discriminate | ].
           destruct (isinstance e2 PyException); cbn;
             intros H; injection H; intros; subst;
             (split; [ eapply in_write_humidity; eauto | auto ]).
      * destruct (isinstance e1 RuntimeError) eqn:I1; cbn;
          [ discriminate | ].
        destruct (isinstance e1 PyException); cbn;
          intros H; injection H; intros; subst;
          (split; [ eapply in_write_temperature; eauto | auto ]).
    + destruct (isinstance eh RuntimeError) eqn:Ih; cbn; [ discriminate | ].
      destruct (isinstance eh PyException); cbn;
        intros H; injection H; intros; subst;
        (split; [ eapply in_humidity; eauto | auto ]).
  - destruct (isinstance et RuntimeError) eqn:It; cbn; [ discriminate | ].
    destruct (isinstance et PyException); cbn;
      intros H; injection H; intros; subst;
      (split; [ apply in_temperature; auto | auto ]).
Qed.

(** A pass in which every call before the sleep returns. *)
Lemma pass_published w l t h :
  sample w = Ok (t, h) ->
  write_register_result w TEMP_ADDRESS t = Ok tt ->
  write_register_result w HUMIDITY_ADDRESS h = Ok tt ->
  loop_body w l =
    ([EvTemperature; EvHumidity;
      EvWriteRegister TEMP_ADDRESS t; EvWriteRegister HUMIDITY_ADDRESS h;
      EvSleep SLEEP_SECONDS],
     set_humidity h (set_temp t l),
     sleep_result w).
Proof.
  intros Hs H1 H2. destruct (sample_ok _ _ _ Hs) as [Ht Hh].
  unfold_pass. rewrite Ht; cbn. rewrite Hh; cbn.
  rewrite H1; cbn. rewrite H2; cbn. reflexivity.
Qed.

(** A handler is chosen by [isinstance] alone: what is not a
    [RuntimeError] leaves the [try] statement as it came. *)
Lemma handlers_pass_on (e : exc) (l : loop_locals) :
  isinstance e RuntimeError = false ->
  select_handler
    [ (RuntimeError, fun error => ret Continue);
      (PyException, fun error => raise error) ] e l
  = ([], l, Raise e).
Proof.
  intros He. cbn [select_handler]. rewrite He.
  destruct (isinstance e PyException); reflexivity.
Qed.

Lemma handlers_absorb (e : exc) (l : loop_locals) :
  isinstance e RuntimeError = true ->
  select_handler
    [ (RuntimeError, fun error => ret Continue);
      (PyException, fun error => raise error) ] e l
  = ([], l, Ok Continue).
Proof.
  intros He. cbn [select_handler]. rewrite He. reflexivity.
Qed.

(** What a pass does never depends on the local variables it finds. *)
Lemma pass_locals_irrelevant w l1 l2 :
  behaviour (loop_body w l1) = behaviour (loop_body w l2).
Proof.
  unfold_pass.
  destruct (temperature_result w) as [t | et]; cbn.
  - destruct (humidity_result w) as [h | eh]; cbn.
    + destruct (write_register_result w TEMP_ADDRESS t) as [[] | e1]; cbn.
      * destruct (write_register_result w HUMIDITY_ADDRESS h) as [[] | e2];
          cbn.
        -- destruct (sleep_result w); reflexivity.
        -- destruct (isinstance e2 RuntimeError);
             [ | destruct (isinstance e2 PyException) ]; reflexivity.
      * destruct (isinstance e1 RuntimeError);
          [ | destruct (isinstance e1 PyException) ]; reflexivity.
    + destruct (isinstance eh RuntimeError);
        [ | destruct (isinstance eh PyException) ]; reflexivity.
  - destruct (isinstance et RuntimeError);
      [ | destruct (isinstance et PyException) ]; reflexivity.
Qed.

(** ** The loop *)

Lemma polling_loop_step fuel env i l :
  polling_loop (S fuel) env i l =
    match loop_body (cycle_of env i) l with
    | (t, l', Ok _) =>
        match polling_loop fuel env (S i) l' with
        | (t', l'', o) => (t ++ t', l'', o)
        end
    | (t, l', Raise e) => (t, l', Raised e)
    end.
Proof. reflexivity. Qed.

(** A pass that returns hands over to the next one. *)
Lemma polling_loop_continues fuel env i l :
  result_of (loop_body (cycle_of env i) l) = Ok tt ->
  behaviour (polling_loop (S fuel) env i l) =
    (trace_of (loop_body (cycle_of env i) l) ++
       fst (behaviour
              (polling_loop fuel env (S i)
                 (locals_of (loop_body (cycle_of env i) l)))),
     snd (behaviour
            (polling_loop fuel env (S i)
               (locals_of (loop_body (cycle_of env i) l))))).
Proof.
  rewrite polling_loop_step.
  destruct (loop_body (cycle_of env i) l) as [[t l'] r].
  unfold result_of, trace_of, locals_of, behaviour; cbn.
  intros ->.
  destruct (polling_loop fuel env (S i) l') as [[t' l''] o]; reflexivity.
Qed.

(** A pass that raises ends the loop with that exception. *)
Lemma polling_loop_stops fuel env i l e :
  result_of (loop_body (cycle_of env i) l) = Raise e ->
  behaviour (polling_loop (S fuel) env i l) =
    (trace_of (loop_body (cycle_of env i) l), Raised e).
Proof.
  rewrite polling_loop_step.
  destruct (loop_body (cycle_of env i) l) as [[t l'] r].
  unfold result_of, trace_of, behaviour; cbn.
  intros ->. reflexivity.
Qed.

(** Nor does the loop depend on the local variables it starts from. *)
Lemma loop_locals_irrelevant fuel env :
  forall i l1 l2,
    behaviour (polling_loop fuel env i l1) =
    behaviour (polling_loop fuel env i l2).
Proof.
  induction fuel as [ | fuel IH ]; intros i l1 l2.
  - reflexivity.
  - rewrite !polling_loop_step.
    pose proof (pass_locals_irrelevant (cycle_of env i) l1 l2) as Hp.
    destruct (loop_body (cycle_of env i) l1) as [[t1 l1'] r1].
    destruct (loop_body (cycle_of env i) l2) as [[t2 l2'] r2].
    unfold behaviour in Hp; cbn in Hp.
    injection Hp; intros; subst.
    destruct r2 as [[] | e].
    + specialize (IH (S i) l1' l2').
      destruct (polling_loop fuel env (S i) l1') as [[u1 m1] o1].
      destruct (polling_loop fuel env (S i) l2') as [[u2 m2] o2].
      unfold behaviour in *; cbn in *.
      injection IH; intros; subst. reflexivity.
    + reflexivity.
Qed.

(** The loop never returns: it is still running, or it has raised. *)
Lemma polling_loop_never_returns fuel env :
  forall i l, snd (polling_loop fuel env i l) <> Returned.
Proof.
  induction fuel as [ | fuel IH ]; intros i l.
  - discriminate.
  - rewrite polling_loop_step.
    destruct (loop_body (cycle_of env i) l) as [[t l'] [[] | e]].
    + specialize (IH (S i) l').
      destruct (polling_loop fuel env (S i) l') as [[t' l''] o]. exact IH.
    + discriminate.
Qed.

(** ** The [try] statement seen from its block *)

Lemma loop_body_by_try_block w l :
  loop_body w l =
    match try_block w l with
    | (t, l', Ok _) => (t ++ [EvSleep SLEEP_SECONDS], l', sleep_result w)
    | (t, l', Raise e) =>
        if isinstance e RuntimeError then (t, l', Ok tt)
        else (t, l', Raise e)
    end.
Proof.
  unfold loop_body, try_except.
  unfold bind at 1 2.
  destruct (try_block w l) as [[t l'] [[] | e]].
  - cbn. rewrite !app_nil_r. reflexivity.
  - destruct (isinstance e RuntimeError) eqn:He.
    + rewrite handlers_absorb by exact He. cbn. rewrite !app_nil_r.
      reflexivity.
    + rewrite handlers_pass_on by exact He. rewrite app_nil_r. reflexivity.
Qed.

Lemma try_block_never_sleeps w l q :
  ~ In (EvSleep q) (trace_of (try_block w l)).
Proof.
  unfold_pass.
  destruct (temperature_result w) as [t | et]; cbn.
  - destruct (humidity_result w) as [h | eh]; cbn.
    + destruct (write_register_result w TEMP_ADDRESS t) as [[] | e1]; cbn.
      * destruct (write_register_result w HUMIDITY_ADDRESS h);
          cbn; intuition discriminate.
      * intuition discriminate.
    + intuition discriminate.
  - intuition discriminate.
Qed.

Lemma try_block_sample_raises w l e :
  sample w = Raise e ->
  result_of (try_block w l) = Raise e /\
  forall a v, ~ In (EvWriteRegister a v) (trace_of (try_block w l)).
Proof.
  intros Hs.
  destruct (sample_raise _ _ Hs) as [Ht | [t [Ht Hh]]]; unfold_pass.
  - rewrite Ht; cbn. intuition discriminate.
  - rewrite Ht; cbn. rewrite Hh; cbn. intuition discriminate.
Qed.

(** After both readings the block is [show_current_values] on them. *)
Lemma try_block_sampled w l t h :
  sample w = Ok (t, h) ->
  try_block w l =
    match show_current_values w t h (set_humidity h (set_temp t l)) with
    | (tr, l', r) => (EvTemperature :: EvHumidity :: tr, l', r)
    end.
Proof.
  intros Hs. destruct (sample_ok _ _ _ Hs) as [Ht Hh].
  unfold_pass. rewrite Ht; cbn. rewrite Hh; cbn.
  destruct (write_register_result w TEMP_ADDRESS t) as [[] | e1];
    reflexivity.
Qed.

(** [show_current_values], by the answer to its first write. *)
Lemma show_current_values_first_ok {L} w t h (l : L) :
  write_register_result w TEMP_ADDRESS t = Ok tt ->
  show_current_values w t h l =
    ([EvWriteRegister TEMP_ADDRESS t; EvWriteRegister HUMIDITY_ADDRESS h],
     l, write_register_result w HUMIDITY_ADDRESS h).
Proof.
  intros H1. unfold show_current_values, write_register, bind, call.
  rewrite H1. reflexivity.
Qed.

Lemma show_current_values_first_raises {L} w t h (l : L) e :
  write_register_result w TEMP_ADDRESS t = Raise e ->
  show_current_values w t h l =
    ([EvWriteRegister TEMP_ADDRESS t], l, Raise e).
Proof.
  intros H1. unfold show_current_values, write_register, bind, call.
  rewrite H1. reflexivity.
Qed.

(** The exception a pass's [try] block ends with, if any call raises
    before the sleep. *)
Lemma try_block_raises w l e :
  raises_in_pass w e ->
  result_of (try_block w l) = Raise e \/
  (result_of (try_block w l) = Ok tt /\ sleep_result w = Raise e).
Proof.
  intros [Ht | t Ht Hh | t h Hs H1 | t h Hs H1 H2 | t h Hs H1 H2 H3].
  - left. apply try_block_sample_raises. unfold sample. rewrite Ht.
    reflexivity.
  - left. apply try_block_sample_raises. unfold sample. rewrite Ht, Hh.
    reflexivity.
  - left. rewrite (try_block_sampled _ _ _ _ Hs).
    rewrite (show_current_values_first_raises _ _ _ _ _ H1). reflexivity.
  - left. rewrite (try_block_sampled _ _ _ _ Hs).
    rewrite (show_current_values_first_ok _ _ _ _ H1). exact H2.
  - right. rewrite (try_block_sampled _ _ _ _ Hs).
    rewrite (show_current_values_first_ok _ _ _ _ H1).
    split; [ exact H2 | exact H3 ].
Qed.

(** Passes [i .. i+k-1] all return: the loop gets to pass [i+k]. *)
Lemma polling_loop_reaches env k :
  forall fuel i l,
    (forall j l', (i <= j < i + k)%nat ->
                  result_of (loop_body (cycle_of env j) l') = Ok tt) ->
    snd (behaviour (polling_loop (k + fuel) env i l)) =
    snd (behaviour (polling_loop fuel env (i + k) unbound)).
Proof.
  induction k as [ | k IH ]; intros fuel i l Hok.
  - rewrite Nat.add_0_r. cbn [Nat.add].
    rewrite (loop_locals_irrelevant fuel env i l unbound). reflexivity.
  - cbn [Nat.add].
    rewrite polling_loop_continues by (apply Hok; lia).
    cbn [snd].
    rewrite IH by (intros; apply Hok; lia).
    replace (S i + k)%nat with (i + S k)%nat by lia. reflexivity.
Qed.

(** ** Transient sensor failures *)

(** C1: in a pass whose sensor read raises a [RuntimeError] no register
    write is made and the pass returns, so the loop goes on to the next
    pass; and from there on the loop behaves as one started afresh, each
    later pass doing what that pass's own answers make it do, whatever
    local variables the failed pass left. *)
Theorem transient_read_skips_cycle env i l e :
  sample (cycle_of env i) = Raise e ->
  isinstance e RuntimeError = true ->
  (forall a v,
      ~ In (EvWriteRegister a v) (trace_of (loop_body (cycle_of env i) l))) /\
  result_of (loop_body (cycle_of env i) l) = Ok tt /\
  (forall fuel,
      behaviour (polling_loop (S fuel) env i l) =
        (trace_of (loop_body (cycle_of env i) l) ++
           fst (behaviour (polling_loop fuel env (S i) unbound)),
         snd (behaviour (polling_loop fuel env (S i) unbound)))) /\
  (forall w' l0,
      behaviour (loop_body w' (locals_of (loop_body (cycle_of env i) l))) =
      behaviour (loop_body w' l0)).
Proof.
  intros Hs He.
  destruct (pass_sample_transient _ l _ Hs He) as [Hr Ht].
  split; [ | split; [ exact Hr | split ] ].
  - intros a v Hin.
    destruct Ht as [Ht | Ht]; rewrite Ht in Hin; cbn in Hin;
      intuition discriminate.
  - intros fuel.
    rewrite (polling_loop_continues fuel env i l Hr).
    rewrite (loop_locals_irrelevant fuel env (S i) _ unbound).
    reflexivity.
  - intros w' l0. apply pass_locals_irrelevant.
Qed.

Lemma transient_read_skips_cycle_witness :
  result_of
    (loop_body (humidity_raises RuntimeError)
       {| temp := Some (VInt 20); humidity := Some (VInt 35) |}) = Ok tt.
Proof.
  exact (proj1 (proj2
    (transient_read_skips_cycle
       (steady_world (fun _ => humidity_raises RuntimeError)) 0
       {| temp := Some (VInt 20); humidity := Some (VInt 35) |}
       RuntimeError eq_refl eq_refl))).
Defined.

(** ** The delay between passes *)

(** C2, refuted as stated: a pass whose sensor read raises a
    [RuntimeError] returns to the head of the loop without sleeping, so
    two sampling attempts follow each other with no delay between. *)
Lemma transient_pass_skips_sleep :
  loop_body (temperature_raises RuntimeError) unbound =
    ([EvTemperature], unbound, Ok tt) /\
  behaviour
    (polling_loop 2 (steady_world (fun _ => temperature_raises RuntimeError))
       0 unbound) =
    ([EvTemperature; EvTemperature], Running) /\
  ~ (forall w l,
        result_of (loop_body w l) = Ok tt ->
        In (EvSleep SLEEP_SECONDS) (trace_of (loop_body w l))).
Proof.
  split; [ reflexivity | split; [ reflexivity | ] ].
  intros H.
  specialize (H (temperature_raises RuntimeError) unbound eq_refl).
  cbv in H. destruct H as [H | []]. discriminate H.
Qed.

(** C2, amended: a pass in which both readings and both writes return
    ends with the sleep of 2.0 seconds, its only one, and goes on to the
    next pass when the sleep returns; a pass whose [try] block raises a
    [RuntimeError] goes on to the next pass without any sleep. *)
Theorem sleep_ends_published_pass_only w l :
  (forall t h,
      sample w = Ok (t, h) ->
      write_register_result w TEMP_ADDRESS t = Ok tt ->
      write_register_result w HUMIDITY_ADDRESS h = Ok tt ->
      exists before,
        trace_of (loop_body w l) = before ++ [EvSleep SLEEP_SECONDS] /\
        (forall q, ~ In (EvSleep q) before) /\
        result_of (loop_body w l) = sleep_result w) /\
  (forall e,
      result_of (try_block w l) = Raise e ->
      isinstance e RuntimeError = true ->
      result_of (loop_body w l) = Ok tt /\
      forall q, ~ In (EvSleep q) (trace_of (loop_body w l))) /\
  (SLEEP_SECONDS == 2)%Q.
Proof.
  split; [ | split ].
  - intros t h Hs H1 H2.
    rewrite (pass_published w l t h Hs H1 H2).
    exists [EvTemperature; EvHumidity;
            EvWriteRegister TEMP_ADDRESS t;
            EvWriteRegister HUMIDITY_ADDRESS h].
    split; [ reflexivity | split; [ | reflexivity ] ].
    intros q Hin. cbn in Hin. intuition discriminate.
  - intros e Hr He.
    pose proof (try_block_never_sleeps w l) as Hn.
    rewrite loop_body_by_try_block.
    destruct (try_block w l) as [[t l'] r].
    unfold result_of, trace_of in *; cbn in *.
    subst r. rewrite He. cbn. split; [ reflexivity | exact Hn ].
  - reflexivity.
Qed.

Lemma sleep_ends_published_pass_only_witness :
  exists before,
    trace_of (loop_body all_fine unbound) = before ++ [EvSleep SLEEP_SECONDS] /\
    (forall q, ~ In (EvSleep q) before) /\
    result_of (loop_body all_fine unbound) = sleep_result all_fine.
Proof.
  exact (proj1 (sleep_ends_published_pass_only all_fine unbound)
           (VInt 23) (VInt 41) eq_refl eq_refl eq_refl).
Defined.

(** ** Errors that end the loop *)

Lemma main_outcome_is_loop_outcome int fuel env argv :
  result_of (before_loop int env argv unbound) = Ok true ->
  snd (main int fuel env argv) =
  snd (behaviour (polling_loop fuel env 0 unbound)).
Proof.
  unfold main, result_of. fold unbound.
  destruct (before_loop int env argv unbound) as [[t l] r].
  cbn [snd]. intros ->.
  rewrite (loop_locals_irrelevant fuel env 0 unbound l).
  unfold polling_loop, behaviour.
  destruct (while_true fuel (fun j => loop_body (cycle_of env j)) 0%nat l)
    as [[t' l'] o].
  reflexivity.
Qed.

(** The classes minimalmodbus raises for a failed exchange are no
    [RuntimeError]s. *)
Lemma modbus_errors_not_transient e :
  isinstance e OSError = true -> isinstance e RuntimeError = false.
Proof. destruct e; vm_compute; congruence. Qed.

(** C3: an exception that is not a [RuntimeError], raised by any call of
    a pass (either sensor property, either register write, the sleep),
    leaves the pass as raised, ends the loop with that very exception,
    and so ends [main]. *)
Theorem fatal_error_ends_loop env i l e :
  raises_in_pass (cycle_of env i) e ->
  isinstance e RuntimeError = false ->
  result_of (loop_body (cycle_of env i) l) = Raise e /\
  (forall fuel, snd (polling_loop (S fuel) env i l) = Raised e) /\
  (forall int argv fuel,
      result_of (before_loop int env argv unbound) = Ok true ->
      (forall j l', (j < i)%nat ->
                    result_of (loop_body (cycle_of env j) l') = Ok tt) ->
      (i < fuel)%nat ->
      snd (main int fuel env argv) = Raised e).
Proof.
  intros Hin He.
  assert (Hpass : forall l0,
             result_of (loop_body (cycle_of env i) l0) = Raise e).
  { intros l0. rewrite loop_body_by_try_block.
    destruct (try_block_raises _ l0 _ Hin) as [Hr | [Hr Hsl]];
      destruct (try_block (cycle_of env i) l0) as [[t l'] r];
      unfold result_of in *; cbn in *; subst r.
    - rewrite He. reflexivity.
    - exact Hsl. }
  split; [ apply Hpass | split ].
  - intros fuel.
    pose proof (polling_loop_stops fuel env i l e (Hpass l)) as Hs.
    unfold behaviour in Hs. injection Hs; intros; assumption.
  - intros int argv fuel Hb Hbefore Hfuel.
    rewrite (main_outcome_is_loop_outcome int fuel env argv Hb).
    replace fuel with (i + S (fuel - S i))%nat by lia.
    rewrite polling_loop_reaches by (intros; apply Hbefore; lia).
    rewrite (polling_loop_stops _ env (0 + i) unbound e (Hpass unbound)).
    reflexivity.
Qed.

Lemma fatal_error_ends_loop_witness :
  snd (main int_ascii 5
         (steady_world
            (fun j => if Nat.eqb j 1
                      then write_raises HUMIDITY_ADDRESS NoResponseError
                      else all_fine))
         ["TempHumidityMonitor.py"]) = Raised NoResponseError.
Proof.
  refine (proj2 (proj2
    (fatal_error_ends_loop
       (steady_world
          (fun j => if Nat.eqb j 1
                    then write_raises HUMIDITY_ADDRESS NoResponseError
                    else all_fine))
       1%nat unbound NoResponseError _ eq_refl))
    int_ascii ["TempHumidityMonitor.py"] 5%nat eq_refl _ _).
  - apply (in_write_humidity _ _ (VInt 23) (VInt 41)); reflexivity.
  - intros j l' Hj. destruct j as [ | j ]; [ reflexivity | lia ].
  - lia.
Defined.

(** ** How far the silent recovery reaches *)



(** ** The command line *)

Lemma startswith_two s a b :
  startswith s (String a (String b EmptyString)) = true ->
  exists rest, s = String a (String b rest).
Proof.
  unfold startswith.
  destruct s as [ | c1 [ | c2 rest ] ]; cbn; try discriminate.
  - destruct (ascii_dec a c1); discriminate.
  - destruct (ascii_dec a c1); [ | discriminate ].
    destruct (ascii_dec b c2); [ | discriminate ].
    subst. eauto.
Qed.

(** Of an argument that starts with a two-character flag: it is shorter
    than three characters exactly when it is the flag alone. *)
Lemma short_flag_alone a b rest :
  (len (String a (String b rest)) <? 3)%nat = true <-> rest = EmptyString.
Proof.
  destruct rest; cbn; split; intros; congruence.
Qed.

Section CommandLineFacts.

Variable int : string -> option Z.

Lemma parse_arg_b arg l :
  startswith arg "-b" = true ->
  parse_arg int arg l =
    if (len arg <? 3)%nat then ([EvPrint usage_b], l, Raise SystemExit)
    else match int (slice_from 2 arg) with
         | Some n => ([], set_baudrate n l, Ok tt)
         | None => ([], l, Raise ValueError)
         end.
Proof.
  intros Hb. destruct (startswith_two _ _ _ Hb) as [rest ->].
  unfold parse_arg.
  replace (startswith (String "-" (String "b" rest)) "-ascii") with false
    by reflexivity.
  replace (startswith (String "-" (String "b" rest)) "-rtu") with false
    by reflexivity.
  rewrite Hb.
  destruct (len (String "-" (String "b" rest)) <? 3)%nat; [ reflexivity | ].
  unfold call_int, bind, ret, raise, modify.
  destruct (int (slice_from 2 (String "-" (String "b" rest))));
    reflexivity.
Qed.

Lemma parse_arg_D arg l :
  startswith arg "-D" = true ->
  parse_arg int arg l =
    if (len arg <? 3)%nat then ([EvPrint usage_D], l, Raise SystemExit)
    else ([], set_portname (slice_from 2 arg) l, Ok tt).
Proof.
  intros HD. destruct (startswith_two _ _ _ HD) as [rest ->].
  unfold parse_arg.
  replace (startswith (String "-" (String "D" rest)) "-ascii") with false
    by reflexivity.
  replace (startswith (String "-" (String "D" rest)) "-rtu") with false
    by reflexivity.
  replace (startswith (String "-" (String "D" rest)) "-b") with false
    by reflexivity.
  rewrite HD.
  destruct (len (String "-" (String "D" rest)) <? 3)%nat; reflexivity.
Qed.

Lemma parse_arg_unrecognized arg l :
  recognized arg = false -> parse_arg int arg l = ([], l, Ok tt).
Proof.
  unfold recognized, parse_arg. intros H.
  destruct (startswith arg "-ascii"); [ discriminate | ].
  destruct (startswith arg "-rtu"); [ discriminate | ].
  destruct (startswith arg "-b"); [ discriminate | ].
  destruct (startswith arg "-D"); [ discriminate | ].
  reflexivity.
Qed.

(** The four ways one argument can go. *)
Lemma parse_arg_cases arg l :
  (exists l', parse_arg int arg l = ([], l', Ok tt)) \/
  (arg = "-b" /\
   parse_arg int arg l = ([EvPrint usage_b], l, Raise SystemExit)) \/
  (arg = "-D" /\
   parse_arg int arg l = ([EvPrint usage_D], l, Raise SystemExit)) \/
  (startswith arg "-b" = true /\ (3 <= len arg)%nat /\
   int (slice_from 2 arg) = None /\
   parse_arg int arg l = ([], l, Raise ValueError)).
Proof.
  destruct (startswith arg "-b") eqn:Hb.
  - rewrite (parse_arg_b arg l Hb).
    destruct (startswith_two _ _ _ Hb) as [rest ->].
    destruct (len (String "-" (String "b" rest)) <? 3)%nat eqn:Hlen.
    + apply short_flag_alone in Hlen. subst rest. right; left. auto.
    + apply Nat.ltb_ge in Hlen.
      destruct (int (slice_from 2 (String "-" (String "b" rest)))) eqn:Hi;
        [ left; eauto | right; right; right; auto ].
  - destruct (startswith arg "-D") eqn:HD.
    + rewrite (parse_arg_D arg l HD).
      destruct (startswith_two _ _ _ HD) as [rest ->].
      destruct (len (String "-" (String "D" rest)) <? 3)%nat eqn:Hlen.
      * apply short_flag_alone in Hlen. subst rest. right; right; left.
        auto.
      * left; eauto.
    + left. unfold parse_arg. rewrite Hb, HD.
      destruct (startswith arg "-ascii"); [ eexists; reflexivity | ].
      destruct (startswith arg "-rtu"); eexists; reflexivity.
Qed.

Lemma for_each_cons (arg : string) rest (l : parse_locals) :
  for_each (arg :: rest) (parse_arg int) l =
    match parse_arg int arg l with
    | (t, l', Ok _) =>
        match for_each rest (parse_arg int) l' with
        | (t', l'', r) => (t ++ t', l'', r)
        end
    | (t, l', Raise e) => (t, l', Raise e)
    end.
Proof. reflexivity. Qed.

(** The loop over the arguments ends in one of three ways: it has
    printed nothing and returns; it has printed one usage message and
    exits; it has printed nothing and [int] has raised. *)
Lemma for_each_arg_cases argv :
  forall l,
    (exists l', for_each argv (parse_arg int) l = ([], l', Ok tt)) \/
    (exists m l', (m = usage_b \/ m = usage_D) /\
       for_each argv (parse_arg int) l =
         ([EvPrint m], l', Raise SystemExit)) \/
    (exists l', for_each argv (parse_arg int) l = ([], l', Raise ValueError)).
Proof.
  induction argv as [ | arg rest IH ]; intros l.
  - left. eexists; reflexivity.
  - rewrite for_each_cons.
    destruct (parse_arg_cases arg l)
      as [[l' E] | [[_ E] | [[_ E] | (_ & _ & _ & E)]]]; rewrite E.
    + destruct (IH l') as [[l'' E'] | [(m & l'' & Hm & E') | [l'' E']]];
        rewrite E'; cbn [app]; eauto 10.
    + right; left. eauto 10.
    + right; left. eauto 10.
    + right; right. eauto.
Qed.

End CommandLineFacts.

Section CommandLineClaims.

Variable int : string -> option Z.

Lemma for_each_unrecognized argv :
  forallb (fun arg => negb (recognized arg)) argv = true ->
  forall l, for_each argv (parse_arg int) l = ([], l, Ok tt).
Proof.
  induction argv as [ | arg rest IH ]; intros Hall l.
  - reflexivity.
  - cbn [forallb] in Hall. apply andb_true_iff in Hall.
    destruct Hall as [Harg Hrest]. apply negb_true_iff in Harg.
    rewrite for_each_cons, (parse_arg_unrecognized int arg l Harg).
    rewrite (IH Hrest l). reflexivity.
Qed.

(** [main] up to the assignments to the serial port, once the command
    line has been read. *)
Lemma main_opens_session fuel env argv p m b :
  snd (parse_commandline int argv) = Ok (p, m, b) ->
  exists rest,
    fst (main int fuel env argv) = EvInstrument p SLAVE_ADDRESS m :: rest /\
    (Instrument_result env p SLAVE_ADDRESS m = Ok true ->
     exists rest',
       rest = EvSetTimeout TIMEOUT :: rest' /\
       (set_timeout_result env TIMEOUT = Ok tt ->
        exists rest'', rest' = EvSetBaudrate b :: rest'')).
Proof.
  intros Hp.
  assert (Hparse : parse_commandline int argv = ([], Ok (p, m, b))).
  { unfold parse_commandline in *.
    destruct (for_each_arg_cases int argv
                {| mode := MODE_RTU; baudrate := DEFAULT_BAUDRATE;
                   portname := DEFAULT_PORT_NAME |})
      as [[l' E] | [(u & l' & _ & E) | [l' E]]];
      rewrite E in *; cbn in Hp; try discriminate.
    rewrite Hp. reflexivity. }
  unfold main, before_loop, lift, bind, call, print, ret.
  rewrite Hparse. cbn [fst snd app].
  destruct (Instrument_result env p SLAVE_ADDRESS m) as [[ | ] | e1];
    cbn [negb app].
  - destruct (set_timeout_result env TIMEOUT) as [[] | e2]; cbn [app].
    + destruct (set_baudrate_result env b) as [[] | e3]; cbn [app].
      * destruct (DHT11_result env DHT_PIN) as [[] | e4]; cbn [app].
        -- destruct (while_true fuel _ 0%nat _) as [[t' l'] o].
           cbn [fst]. eexists; split; [ reflexivity | ].
           intros _. eexists; split; [ reflexivity | ].
           intros _. eexists; reflexivity.
        -- cbn [fst]. eexists; split; [ reflexivity | ].
           intros _. eexists; split; [ reflexivity | ].
           intros _. eexists; reflexivity.
      * cbn [fst]. eexists; split; [ reflexivity | ].
        intros _. eexists; split; [ reflexivity | ].
        intros _. eexists; reflexivity.
    + cbn [fst]. eexists; split; [ reflexivity | ].
      intros _. eexists; split; [ reflexivity | ].
      discriminate.
  - cbn [fst]. eexists; split; [ reflexivity | ]. discriminate.
  - cbn [fst]. eexists; split; [ reflexivity | ]. discriminate.
Qed.

(** C6: with no recognised flag in the argument list,
    [parse_commandline] returns the port "/dev/ttyUSB0", the RTU mode
    and the baud rate 115200, and [main] constructs the instrument on
    that port with slave address 0x7B in RTU mode, then sets the baud
    rate 115200 on its serial port. *)
Theorem defaults_without_flags argv :
  forallb (fun arg => negb (recognized arg)) argv = true ->
  parse_commandline int argv = ([], Ok ("/dev/ttyUSB0", MODE_RTU, 115200)) /\
  forall fuel env,
    exists rest,
      fst (main int fuel env argv) =
        EvInstrument "/dev/ttyUSB0" 0x7B MODE_RTU :: rest /\
      (Instrument_result env "/dev/ttyUSB0" 0x7B MODE_RTU = Ok true ->
       exists rest',
         rest = EvSetTimeout TIMEOUT :: rest' /\
         (set_timeout_result env TIMEOUT = Ok tt ->
          exists rest'', rest' = EvSetBaudrate 115200 :: rest'')).
Proof.
  intros Hall.
  assert (Hp : parse_commandline int argv =
               ([], Ok ("/dev/ttyUSB0", MODE_RTU, 115200))).
  { unfold parse_commandline.
    rewrite (for_each_unrecognized argv Hall). reflexivity. }
  split; [ exact Hp | ].
  intros fuel env.
  apply (main_opens_session fuel env argv "/dev/ttyUSB0" MODE_RTU 115200).
  rewrite Hp. reflexivity.
Qed.

End CommandLineClaims.

Lemma defaults_without_flags_witness :
  parse_commandline int_ascii ["TempHumidityMonitor.py"] =
    ([], Ok ("/dev/ttyUSB0", MODE_RTU, 115200)).
Proof.
  exact (proj1 (defaults_without_flags int_ascii
                  ["TempHumidityMonitor.py"] eq_refl)).
Defined.

(** ** Usage errors *)

Section UsageErrors.

Variable int : string -> option Z.

(** The loop over [pre ++ arg :: post] gets to [arg] when the loop over
    [pre] returns. *)
Lemma for_each_app (pre post : list string) :
  forall l,
    for_each (pre ++ post) (parse_arg int) l =
      match for_each pre (parse_arg int) l with
      | (t, l', Ok _) =>
          match for_each post (parse_arg int) l' with
          | (t', l'', r) => (t ++ t', l'', r)
          end
      | (t, l', Raise e) => (t, l', Raise e)
      end.
Proof.
  induction pre as [ | arg rest IH ]; intros l.
  - cbn. destruct (for_each post (parse_arg int) l) as [[t' l''] r].
    reflexivity.
  - cbn [app]. rewrite !for_each_cons.
    destruct (parse_arg int arg l) as [[t l'] [[] | e]]; [ | reflexivity ].
    rewrite IH.
    destruct (for_each rest (parse_arg int) l') as [[t1 l1] [[] | e1]].
    + destruct (for_each post (parse_arg int) l1) as [[t2 l2] r2].
      rewrite app_assoc. reflexivity.
    + reflexivity.
Qed.

(** When [parse_commandline] raises, [main] ends there. *)
Lemma main_stops_at_parse fuel env argv e :
  snd (parse_commandline int argv) = Raise e ->
  main int fuel env argv = (fst (parse_commandline int argv), Raised e).
Proof.
  intros Hp. unfold main, before_loop, lift, bind.
  destruct (parse_commandline int argv) as [t r]. cbn in *. subst r.
  reflexivity.
Qed.

(** Every [-b] argument of [pre] that is long enough carries an integer:
    the loop over [pre] prints nothing and returns, or prints one usage
    message and exits. *)
Lemma for_each_without_bad_baud pre :
  (forall a, In a pre -> startswith a "-b" = true -> (3 <= len a)%nat ->
             int (slice_from 2 a) <> None) ->
  forall l,
    (exists l', for_each pre (parse_arg int) l = ([], l', Ok tt)) \/
    (exists m l', (m = usage_b \/ m = usage_D) /\
       for_each pre (parse_arg int) l = ([EvPrint m], l', Raise SystemExit)).
Proof.
  induction pre as [ | arg rest IH ]; intros Hgood l.
  - left. eexists; reflexivity.
  - rewrite for_each_cons.
    destruct (parse_arg_cases int arg l)
      as [[l' E] | [[_ E] | [[_ E] | (Hb & Hlen & Hint & _)]]].
    + rewrite E.
      destruct (IH (fun a Ha => Hgood a (or_intror Ha)) l')
        as [[l'' E'] | (m & l'' & Hm & E')]; rewrite E'; cbn [app];
        eauto 10.
    + rewrite E. right. eauto 10.
    + rewrite E. right. eauto 10.
    + exfalso. exact (Hgood arg (or_introl eq_refl) Hb Hlen Hint).
Qed.

(** The first bare "-b" or "-D" of an argument list that has one. *)
Lemma first_bare_flag (argv : list string) :
  In "-b" argv \/ In "-D" argv ->
  exists pre flag post,
    argv = pre ++ flag :: post /\
    (flag = "-b" \/ flag = "-D") /\
    ~ In "-b" pre /\ ~ In "-D" pre.
Proof.
  induction argv as [ | a rest IH ]; intros Hin.
  - destruct Hin as [[] | []].
  - destruct (string_dec a "-b") as [Hb | Hb].
    { exists [], a, rest. cbn. auto. }
    destruct (string_dec a "-D") as [HD | HD].
    { exists [], a, rest. cbn. auto. }
    destruct IH as (pre & flag & post & -> & Hflag & Hnb & HnD).
    { destruct Hin as [[H | H] | [H | H]]; auto; contradiction. }
    exists (a :: pre), flag, post.
    split; [ reflexivity | split; [ exact Hflag | ] ].
    split; intros [H | H]; auto.
Qed.

(** An argument the loop gets past is no "-b" argument that [int]
    rejects. *)
Lemma parse_arg_ok_is_good arg l t l' :
  parse_arg int arg l = (t, l', Ok tt) ->
  startswith arg "-b" = true -> (3 <= len arg)%nat ->
  int (slice_from 2 arg) <> None.
Proof.
  intros Hok Hb Hlen Hint.
  rewrite (parse_arg_b int arg l Hb) in Hok.
  apply Nat.ltb_ge in Hlen. rewrite Hlen, Hint in Hok.
  discriminate Hok.
Qed.

(** The loop over arguments without a bare flag: it returns when every
    long "-b" argument carries an integer, and raises [ValueError], with
    nothing printed, when one does not. *)
Lemma for_each_without_bare_flag pre :
  ~ In "-b" pre -> ~ In "-D" pre ->
  forall l,
    ((forall a, In a pre -> startswith a "-b" = true -> (3 <= len a)%nat ->
                int (slice_from 2 a) <> None) /\
     exists l', for_each pre (parse_arg int) l = ([], l', Ok tt)) \/
    ((exists a, In a pre /\ startswith a "-b" = true /\ (3 <= len a)%nat /\
                int (slice_from 2 a) = None) /\
     exists l', for_each pre (parse_arg int) l = ([], l', Raise ValueError)).
Proof.
  induction pre as [ | arg rest IH ]; intros Hnb HnD l.
  - left. split; [ intros a [] | eexists; reflexivity ].
  - rewrite for_each_cons.
    assert (Hnb' : ~ In "-b" rest) by (intros H; apply Hnb; right; exact H).
    assert (HnD' : ~ In "-D" rest) by (intros H; apply HnD; right; exact H).
    destruct (parse_arg_cases int arg l)
      as [[l1 E] | [[Ha _] | [[Ha _] | (Hb & Hlen & Hint & E)]]].
    + pose proof (parse_arg_ok_is_good arg l [] l1 E) as Hgood.
      rewrite E.
      destruct (IH Hnb' HnD' l1)
        as [[Hall [l' E']] | [(a & Ha & Hbad) [l' E']]]; rewrite E'.
      * left. split; [ | eexists; reflexivity ].
        intros a [<- | Ha]; [ exact Hgood | apply Hall; exact Ha ].
      * right. split; [ | eexists; reflexivity ].
        exists a. split; [ right; exact Ha | exact Hbad ].
    + exfalso. apply Hnb. left. exact Ha.
    + exfalso. apply HnD. left. exact Ha.
    + rewrite E. right. split; [ | eexists; reflexivity ].
      exists arg. split; [ left; reflexivity | auto ].
Qed.

(** A [ValueError] of the loop comes from a long "-b" argument of the
    list that [int] rejects. *)
Lemma for_each_value_error_cause argv :
  forall l t l',
    for_each argv (parse_arg int) l = (t, l', Raise ValueError) ->
    exists a, In a argv /\ startswith a "-b" = true /\ (3 <= len a)%nat /\
              int (slice_from 2 a) = None.
Proof.
  induction argv as [ | arg rest IH ]; intros l t l' Hrun.
  - discriminate Hrun.
  - rewrite for_each_cons in Hrun.
    destruct (parse_arg_cases int arg l)
      as [[l1 E] | [[_ E] | [[_ E] | (Hb & Hlen & Hint & E)]]];
      rewrite E in Hrun; try discriminate Hrun.
    + destruct (for_each rest (parse_arg int) l1) as [[t1 l2] r] eqn:Hrest.
      injection Hrun; intros; subst.
      destruct (IH _ _ _ Hrest) as (a & Ha & Hbad).
      exists a. split; [ right; exact Ha | exact Hbad ].
    + exists arg. split; [ left; reflexivity | auto ].
Qed.

(** C7, amended: when the argument list holds a bare "-b" or a bare
    "-D", [main] never constructs the instrument and ends by an
    exception raised in [parse_commandline].  Up to the first bare flag
    of the list: when every "-b" argument of three characters or more
    before it carries an integer, [main] prints the usage message of that
    flag and exits, nothing else; when one of them has a rest that [int]
    rejects, [main] ends with [ValueError] and prints nothing. *)
Theorem bare_flag_exits_before_session fuel env argv :
  In "-b" argv \/ In "-D" argv ->
  (forall p s m, ~ In (EvInstrument p s m) (fst (main int fuel env argv))) /\
  (exists e, snd (main int fuel env argv) = Raised e /\
             (e = SystemExit \/ e = ValueError)) /\
  exists pre flag post,
    argv = pre ++ flag :: post /\
    (flag = "-b" \/ flag = "-D") /\
    ~ In "-b" pre /\ ~ In "-D" pre /\
    ((forall a, In a pre -> startswith a "-b" = true -> (3 <= len a)%nat ->
                int (slice_from 2 a) <> None) ->
     exists u,
       ((flag = "-b" /\ u = usage_b) \/ (flag = "-D" /\ u = usage_D)) /\
       main int fuel env argv = ([EvPrint u], Raised SystemExit)) /\
    ((exists a, In a pre /\ startswith a "-b" = true /\ (3 <= len a)%nat /\
                int (slice_from 2 a) = None) ->
     main int fuel env argv = ([], Raised ValueError)).
Proof.
  intros Hin.
  destruct (first_bare_flag argv Hin)
    as (pre & flag & post & -> & Hflag & Hnb & HnD).
  set (start := {| mode := MODE_RTU; baudrate := DEFAULT_BAUDRATE;
                   portname := DEFAULT_PORT_NAME |}).
  assert (Hbare : forall l, exists u,
             ((flag = "-b" /\ u = usage_b) \/ (flag = "-D" /\ u = usage_D)) /\
             for_each (flag :: post) (parse_arg int) l =
               ([EvPrint u], l, Raise SystemExit)).
  { intros l. destruct Hflag as [-> | ->]; eexists;
      (split; [ | reflexivity ]); auto. }
  assert (Hmain :
    ((forall a, In a pre -> startswith a "-b" = true -> (3 <= len a)%nat ->
                int (slice_from 2 a) <> None) /\
     exists u,
       ((flag = "-b" /\ u = usage_b) \/ (flag = "-D" /\ u = usage_D)) /\
       main int fuel env (pre ++ flag :: post) =
         ([EvPrint u], Raised SystemExit)) \/
    ((exists a, In a pre /\ startswith a "-b" = true /\ (3 <= len a)%nat /\
                int (slice_from 2 a) = None) /\
     main int fuel env (pre ++ flag :: post) = ([], Raised ValueError))).
  { destruct (for_each_without_bare_flag pre Hnb HnD start)
      as [[Hall [l' E]] | [Hbad [l' E]]].
    - left. split; [ exact Hall | ].
      destruct (Hbare l') as (u & Hu & Eflag).
      exists u. split; [ exact Hu | ].
      assert (Hp : parse_commandline int (pre ++ flag :: post) =
                   ([EvPrint u], Raise SystemExit)).
      { unfold parse_commandline. fold start.
        rewrite for_each_app, E, Eflag. reflexivity. }
      rewrite (main_stops_at_parse fuel env _ SystemExit)
        by (rewrite Hp; reflexivity).
      rewrite Hp. reflexivity.
    - right. split; [ exact Hbad | ].
      assert (Hp : parse_commandline int (pre ++ flag :: post) =
                   ([], Raise ValueError)).
      { unfold parse_commandline. fold start.
        rewrite for_each_app, E. reflexivity. }
      rewrite (main_stops_at_parse fuel env _ ValueError)
        by (rewrite Hp; reflexivity).
      rewrite Hp. reflexivity. }
  split; [ | split ].
  - destruct Hmain as [[_ (u & _ & ->)] | [_ ->]]; cbn [fst].
    + intros p s m [H | []]. discriminate H.
    + intros p s m [].
  - destruct Hmain as [[_ (u & _ & ->)] | [_ ->]]; cbn [snd]; eauto.
  - exists pre, flag, post.
    split; [ reflexivity | split; [ exact Hflag | ] ].
    split; [ exact Hnb | split; [ exact HnD | split ] ].
    + intros Hall.
      destruct Hmain as [[_ H] | [(a & Ha & Hb & Hlen & Hint) _]];
        [ exact H | destruct (Hall a Ha Hb Hlen Hint) ].
    + intros (a & Ha & Hb & Hlen & Hint).
      destruct Hmain as [[Hall _] | [_ H]];
        [ destruct (Hall a Ha Hb Hlen Hint) | exact H ].
Qed.

(** C9, amended: an argument that starts with "-b", has three
    characters or more, and whose rest [int] rejects makes the loop body
    raise [ValueError] with nothing printed; when the arguments before it
    parse, so that the loop reaches it, [parse_commandline] on the whole
    list raises that [ValueError] having printed nothing, and [main] ends
    with it.  The exit with a usage message is taken for a bare "-b" or
    "-D" only.  [parse_commandline] raises [ValueError] only when the
    list holds such a "-b" argument: it returns or exits with a usage
    message on every argument list whose long "-b" arguments all carry
    an integer, and on no list does it return when one of them does not;
    [main] does not catch the [ValueError]. *)
Theorem bad_baud_raises_value_error :
  (forall arg l,
      startswith arg "-b" = true -> (3 <= len arg)%nat ->
      int (slice_from 2 arg) = None ->
      parse_arg int arg l = ([], l, Raise ValueError)) /\
  (forall pre arg post r,
      snd (parse_commandline int pre) = Ok r ->
      startswith arg "-b" = true -> (3 <= len arg)%nat ->
      int (slice_from 2 arg) = None ->
      parse_commandline int (pre ++ arg :: post) = ([], Raise ValueError) /\
      forall fuel env,
        main int fuel env (pre ++ arg :: post) = ([], Raised ValueError)) /\
  (forall arg l,
      result_of (parse_arg int arg l) = Raise SystemExit ->
      (len arg < 3)%nat /\ (arg = "-b" \/ arg = "-D")) /\
  (forall argv,
      snd (parse_commandline int argv) = Raise ValueError ->
      exists a, In a argv /\ startswith a "-b" = true /\ (3 <= len a)%nat /\
                int (slice_from 2 a) = None) /\
  (forall argv,
      (forall a, In a argv -> startswith a "-b" = true -> (3 <= len a)%nat ->
                 int (slice_from 2 a) <> None) ->
      snd (parse_commandline int argv) <> Raise ValueError) /\
  (forall argv r,
      snd (parse_commandline int argv) = Ok r ->
      forall a, In a argv -> startswith a "-b" = true -> (3 <= len a)%nat ->
                int (slice_from 2 a) <> None) /\
  (forall argv,
      snd (parse_commandline int argv) = Raise ValueError ->
      forall fuel env, main int fuel env argv = ([], Raised ValueError)).
Proof.
  set (start := {| mode := MODE_RTU; baudrate := DEFAULT_BAUDRATE;
                   portname := DEFAULT_PORT_NAME |}).
  assert (Hsilent : forall argv,
             snd (parse_commandline int argv) = Raise ValueError ->
             parse_commandline int argv = ([], Raise ValueError)).
  { intros argv Hp. unfold parse_commandline in *. fold start in Hp |- *.
    destruct (for_each_arg_cases int argv start)
      as [[l' E] | [(u & l' & _ & E) | [l' E]]];
      rewrite E in *; cbn in Hp; try discriminate Hp.
    reflexivity. }
  assert (Harg : forall arg l,
             startswith arg "-b" = true -> (3 <= len arg)%nat ->
             int (slice_from 2 arg) = None ->
             parse_arg int arg l = ([], l, Raise ValueError)).
  { intros arg l Hb Hlen Hint.
    rewrite (parse_arg_b int arg l Hb).
    apply Nat.ltb_ge in Hlen. rewrite Hlen, Hint. reflexivity. }
  split; [ exact Harg | ].
  split; [ | split; [ | split; [ | split; [ | split ] ] ] ].
  - intros pre arg post r Hpre Hb Hlen Hint.
    assert (Hp : parse_commandline int (pre ++ arg :: post) =
                 ([], Raise ValueError)).
    { unfold parse_commandline in *. fold start in Hpre |- *.
      rewrite for_each_app.
      destruct (for_each_arg_cases int pre start)
        as [[l' E] | [(u & l' & _ & E) | [l' E]]];
        rewrite E in *; cbn in Hpre; try discriminate Hpre.
      rewrite for_each_cons, (Harg arg l' Hb Hlen Hint). reflexivity. }
    split; [ exact Hp | ].
    intros fuel env.
    rewrite (main_stops_at_parse fuel env _ ValueError)
      by (rewrite Hp; reflexivity).
    rewrite Hp. reflexivity.
  - intros arg l.
    destruct (parse_arg_cases int arg l)
      as [[l' E] | [[Ha E] | [[Ha E] | (_ & _ & _ & E)]]];
      rewrite E; unfold result_of; cbn [snd]; try discriminate;
      intros _; subst arg; cbn; split; auto; lia.
  - intros argv Hp.
    unfold parse_commandline in Hp. fold start in Hp.
    destruct (for_each argv (parse_arg int) start) as [[t l'] [[] | e]]
      eqn:Hrun; cbn in Hp; [ discriminate Hp | ].
    injection Hp; intros; subst e.
    exact (for_each_value_error_cause argv _ _ _ Hrun).
  - intros argv Hgood.
    unfold parse_commandline. fold start.
    destruct (for_each_without_bad_baud argv Hgood start)
      as [[l' E] | (m & l' & _ & E)]; rewrite E; discriminate.
  - intros argv r.
    unfold parse_commandline. fold start.
    generalize start.
    induction argv as [ | arg rest IH ]; intros l Hok a Hin Hb Hlen Hint.
    + destruct Hin.
    + rewrite for_each_cons in Hok.
      destruct Hin as [<- | Hin].
      * rewrite (Harg arg l Hb Hlen Hint) in Hok. discriminate Hok.
      * destruct (parse_arg int arg l) as [[t l'] [[] | e]];
          [ | discriminate Hok ].
        refine (IH l' _ a Hin Hb Hlen Hint).
        destruct (for_each rest (parse_arg int) l') as [[t' l''] [[] | e']];
          [ exact Hok | discriminate Hok ].
  - intros argv Hp fuel env.
    rewrite (main_stops_at_parse fuel env argv ValueError Hp).
    rewrite (Hsilent argv Hp). reflexivity.
Qed.

End UsageErrors.

Lemma bare_flag_exits_before_session_witness :
  exists e,
    snd (main int_ascii 0 (steady_world (fun _ => all_fine))
           ["TempHumidityMonitor.py"; "-ascii"; "-b"]) = Raised e /\
    (e = SystemExit \/ e = ValueError).
Proof.
  exact (proj1 (proj2
    (bare_flag_exits_before_session int_ascii 0
       (steady_world (fun _ => all_fine))
       ["TempHumidityMonitor.py"; "-ascii"; "-b"]
       (or_introl (or_intror (or_intror (or_introl eq_refl))))))).
Defined.

(** C7, refuted as stated: a bare "-b" that comes after a "-b" argument
    with a rest that is no integer is never reached; the run ends with a
    [ValueError] and no usage message is printed. *)
Lemma bare_b_after_bad_baud_prints_nothing :
  In "-b" ["TempHumidityMonitor.py"; "-bfoo"; "-b"] /\
  main int_ascii 1 (steady_world (fun _ => all_fine))
       ["TempHumidityMonitor.py"; "-bfoo"; "-b"] = ([], Raised ValueError) /\
  ~ (forall int fuel env argv,
        In "-b" argv -> usage_exit (main int fuel env argv)).
Proof.
  split; [ cbn; auto | split; [ reflexivity | ] ].
  intros H.
  destruct (H int_ascii 1%nat (steady_world (fun _ => all_fine))
              ["TempHumidityMonitor.py"; "-bfoo"; "-b"])
    as (m & _ & Hm).
  - cbn; auto.
  - discriminate Hm.
Qed.

(** C9, refuted as stated: a "-b" argument with a rest that is no
    integer, placed after a bare "-D", is never reached; the run prints
    the usage message of "-D" and exits, and no [ValueError] is
    raised. *)
Lemma bad_baud_after_bare_flag_is_not_reached :
  In "-bfoo" ["TempHumidityMonitor.py"; "-D"; "-bfoo"] /\
  startswith "-bfoo" "-b" = true /\ (3 <= len "-bfoo")%nat /\
  int_ascii (slice_from 2 "-bfoo") = None /\
  parse_commandline int_ascii ["TempHumidityMonitor.py"; "-D"; "-bfoo"] =
    ([EvPrint usage_D], Raise SystemExit) /\
  ~ (forall int argv arg,
        In arg argv ->
        startswith arg "-b" = true -> (3 <= len arg)%nat ->
        int (slice_from 2 arg) = None ->
        snd (parse_commandline int argv) = Raise ValueError).
Proof.
  split; [ cbn; auto | ].
  split; [ reflexivity | split; [ cbn; lia | ] ].
  split; [ reflexivity | split; [ reflexivity | ] ].
  intros H.
  specialize (H int_ascii ["TempHumidityMonitor.py"; "-D"; "-bfoo"] "-bfoo").
  assert (Hno : snd (parse_commandline int_ascii
                       ["TempHumidityMonitor.py"; "-D"; "-bfoo"])
                = Raise ValueError).
  { apply H; [ cbn; auto | reflexivity | cbn; lia | reflexivity ]. }
  discriminate Hno.
Qed.

Lemma bad_baud_raises_value_error_witness :
  main int_ascii 2 (steady_world (fun _ => all_fine))
       (["TempHumidityMonitor.py"; "-ascii"] ++ "-bfoo" :: ["-b"]) =
  ([], Raised ValueError).
Proof.
  refine (proj2 (proj1 (proj2 (bad_baud_raises_value_error int_ascii))
            ["TempHumidityMonitor.py"; "-ascii"] "-bfoo" ["-b"]
            ("/dev/ttyUSB0", MODE_ASCII, 115200) eq_refl eq_refl _ eq_refl)
            2%nat (steady_world (fun _ => all_fine))).
  cbn; lia.
Defined.

(** ** The two registers *)

(** C5, refuted as stated: when the write of the temperature raises,
    [show_current_values] issues that one write and no other. *)
Lemma failed_first_write_is_the_only_write :
  show_current_values (write_raises TEMP_ADDRESS NoResponseError)
    (VInt 23) (VInt 41) unbound =
    ([EvWriteRegister 106 (VInt 23)], unbound, Raise NoResponseError) /\
  ~ (forall w t h (l : loop_locals),
        trace_of (show_current_values w t h l) =
          [EvWriteRegister TEMP_ADDRESS t;
           EvWriteRegister HUMIDITY_ADDRESS h]).
Proof.
  split; [ reflexivity | ].
  intros H.
  specialize (H (write_raises TEMP_ADDRESS NoResponseError)
                (VInt 23) (VInt 41) unbound).
  discriminate H.
Qed.

(** C5, amended: [show_current_values] writes the temperature first, to
    [TEMP_ADDRESS]; it writes the humidity next, to [HUMIDITY_ADDRESS],
    exactly when the first write returned; it issues no other write, and
    its result is that of the last write it issued. *)
Theorem temperature_then_humidity w t h (l : loop_locals) :
  (write_register_result w TEMP_ADDRESS t = Ok tt ->
   show_current_values w t h l =
     ([EvWriteRegister TEMP_ADDRESS t; EvWriteRegister HUMIDITY_ADDRESS h],
      l, write_register_result w HUMIDITY_ADDRESS h)) /\
  (forall e,
      write_register_result w TEMP_ADDRESS t = Raise e ->
      show_current_values w t h l =
        ([EvWriteRegister TEMP_ADDRESS t], l, Raise e)).
Proof.
  split.
  - apply show_current_values_first_ok.
  - intros e. apply show_current_values_first_raises.
Qed.

Lemma temperature_then_humidity_witness :
  show_current_values all_fine (VInt 23) (VInt 41) unbound =
    ([EvWriteRegister TEMP_ADDRESS (VInt 23);
      EvWriteRegister HUMIDITY_ADDRESS (VInt 41)],
     unbound, Ok tt).
Proof.
  exact (proj1 (temperature_then_humidity all_fine (VInt 23) (VInt 41)
                  unbound) eq_refl).
Defined.

(** ** What a run can emit *)

Lemma loop_body_events w l ev :
  In ev (trace_of (loop_body w l)) ->
  ev = EvTemperature \/ ev = EvHumidity \/
  (exists v, ev = EvWriteRegister TEMP_ADDRESS v /\
             temperature_result w = Ok v) \/
  (exists v, ev = EvWriteRegister HUMIDITY_ADDRESS v /\
             humidity_result w = Ok v) \/
  ev = EvSleep SLEEP_SECONDS.
Proof.
  unfold_pass.
  destruct (temperature_result w) as [t | et]; cbn.
  - destruct (humidity_result w) as [h | eh]; cbn.
    + destruct (write_register_result w TEMP_ADDRESS t) as [[] | e1]; cbn.
      * destruct (write_register_result w HUMIDITY_ADDRESS h) as [[] | e2];
          cbn.
        -- destruct (sleep_result w); cbn; in_cases.
        -- destruct (isinstance e2 RuntimeError);
             [ | destruct (isinstance e2 PyException) ]; cbn; in_cases.
      * destruct (isinstance e1 RuntimeError);
          [ | destruct (isinstance e1 PyException) ]; cbn; in_cases.
    + destruct (isinstance eh RuntimeError);
        [ | destruct (isinstance eh PyException) ]; cbn; in_cases.
  - destruct (isinstance et RuntimeError);
      [ | destruct (isinstance et PyException) ]; cbn; in_cases.
Qed.

Lemma polling_loop_events fuel env :
  forall i l ev,
    In ev (fst (fst (polling_loop fuel env i l))) ->
    exists j l', In ev (trace_of (loop_body (cycle_of env j) l')).
Proof.
  induction fuel as [ | fuel IH ]; intros i l ev.
  - intros [].
  - rewrite polling_loop_step.
    destruct (loop_body (cycle_of env i) l) as [[t l'] [[] | e]] eqn:E.
    + specialize (IH (S i) l' ev).
      destruct (polling_loop fuel env (S i) l') as [[t' l''] o].
      cbn [fst]. intros Hin. apply in_app_or in Hin.
      destruct Hin as [Hin | Hin]; [ | auto ].
      exists i, l. rewrite E. exact Hin.
    + cbn [fst]. intros Hin. exists i, l. rewrite E. exact Hin.
Qed.

Lemma before_loop_events int env argv l ev :
  In ev (trace_of (before_loop int env argv l)) ->
  (exists s, ev = EvPrint s) \/
  (exists p m, ev = EvInstrument p SLAVE_ADDRESS m) \/
  ev = EvSetTimeout TIMEOUT \/
  (exists b, ev = EvSetBaudrate b) \/
  ev = EvDHT11 DHT_PIN.
Proof.
  unfold before_loop, lift, bind, call, print, ret, trace_of,
    parse_commandline.
  destruct (for_each_arg_cases int argv
              {| mode := MODE_RTU; baudrate := DEFAULT_BAUDRATE;
                 portname := DEFAULT_PORT_NAME |})
    as [[l' E] | [(u & l' & _ & E) | [l' E]]]; rewrite E; cbn [fst snd app].
  - destruct (Instrument_result env (portname l') SLAVE_ADDRESS (mode l'))
      as [[ | ] | e1]; cbn [negb fst snd app].
    + destruct (set_timeout_result env TIMEOUT) as [[] | e2];
        cbn [fst snd app];
        [ destruct (set_baudrate_result env (baudrate l')) as [[] | e3];
          cbn [fst snd app];
          [ destruct (DHT11_result env DHT_PIN) as [[] | e4];
            cbn [fst snd app] | ] | ];
        in_cases.
    + in_cases.
    + in_cases.
  - in_cases.
  - in_cases.
Qed.

Lemma main_events int fuel env argv ev :
  In ev (fst (main int fuel env argv)) ->
  In ev (trace_of (before_loop int env argv unbound)) \/
  exists j l, In ev (trace_of (loop_body (cycle_of env j) l)).
Proof.
  unfold main. fold unbound.
  destruct (before_loop int env argv unbound) as [[t l] [[ | ] | e]];
    unfold trace_of; cbn [fst]; auto.
  pose proof (polling_loop_events fuel env 0 l ev) as Hloop.
  unfold polling_loop in Hloop.
  destruct (while_true fuel (fun j => loop_body (cycle_of env j)) 0%nat l)
    as [[t' l'] o].
  cbn [fst] in *. intros Hin. apply in_app_or in Hin.
  destruct Hin; auto.
Qed.

(** C4: [TEMP_ADDRESS] is 106 and [HUMIDITY_ADDRESS] is 306; in every
    run, whatever the command line and whatever the outside world does,
    a register write goes to 106 with the temperature read in its pass
    or to 306 with the humidity read in its pass, and to no other
    address. *)
Theorem register_addresses_are_fixed :
  TEMP_ADDRESS = 106 /\ HUMIDITY_ADDRESS = 306 /\
  forall int fuel env argv a v,
    In (EvWriteRegister a v) (fst (main int fuel env argv)) ->
    exists j,
      (a = 106 /\ temperature_result (cycle_of env j) = Ok v) \/
      (a = 306 /\ humidity_result (cycle_of env j) = Ok v).
Proof.
  split; [ reflexivity | split; [ reflexivity | ] ].
  intros int fuel env argv a v Hin.
  destruct (main_events _ _ _ _ _ Hin) as [Hb | (j & l & Hl)].
  - apply before_loop_events in Hb.
    destruct Hb as [[s H] | [(p & m & H) | [H | [[b H] | H]]]];
      discriminate H.
  - exists j.
    destruct (loop_body_events _ _ _ Hl)
      as [H | [H | [(v' & H & Hv) | [(v' & H & Hv) | H]]]];
      try discriminate H; injection H; intros; subst; auto.
Qed.

Lemma register_addresses_are_fixed_witness :
  exists j,
    (106 = 106 /\
     temperature_result (cycle_of (steady_world (fun _ => all_fine)) j)
       = Ok (VInt 23)) \/
    (106 = 306 /\
     humidity_result (cycle_of (steady_world (fun _ => all_fine)) j)
       = Ok (VInt 23)).
Proof.
  apply (proj2 (proj2 register_addresses_are_fixed) int_ascii 1%nat
           (steady_world (fun _ => all_fine)) ["TempHumidityMonitor.py"]).
  vm_compute. do 6 right. left. reflexivity.
Defined.

(** ** The timeout *)

(** C8: whatever port, mode and baud rate the command line yields, once
    the instrument is constructed with a serial port the next thing
    [main] does is to set that port's timeout to [TIMEOUT]; no run ever
    sets another timeout; [TIMEOUT] is 0.3, which is not below the
    0.3 seconds that the comment on its definition asks for in ASCII mode
    at 2400 bits/s. *)
Theorem timeout_is_one_constant int fuel env argv p m b :
  snd (parse_commandline int argv) = Ok (p, m, b) ->
  Instrument_result env p SLAVE_ADDRESS m = Ok true ->
  (exists rest,
      fst (main int fuel env argv) =
        EvInstrument p SLAVE_ADDRESS m :: EvSetTimeout TIMEOUT :: rest) /\
  (forall q, In (EvSetTimeout q) (fst (main int fuel env argv)) ->
             q = TIMEOUT) /\
  TIMEOUT = (3 # 10)%Q /\
  (MINIMUM_TIMEOUT_ASCII_2400 <= TIMEOUT)%Q.
Proof.
  intros Hp Hserial.
  split; [ | split; [ | split ] ].
  - destruct (main_opens_session int fuel env argv p m b Hp)
      as (rest & Hmain & Hnext).
    destruct (Hnext Hserial) as (rest' & -> & _).
    exists rest'. exact Hmain.
  - intros q Hin.
    destruct (main_events _ _ _ _ _ Hin) as [Hb | (j & l & Hl)].
    + apply before_loop_events in Hb.
      destruct Hb as [[s H] | [(p' & m' & H) | [H | [[b' H] | H]]]];
        try discriminate H.
      injection H; auto.
    + destruct (loop_body_events _ _ _ Hl)
        as [H | [H | [(v' & H & _) | [(v' & H & _) | H]]]];
        discriminate H.
  - reflexivity.
  - apply Qle_refl.
Qed.

Lemma timeout_is_one_constant_witness :
  exists rest,
    fst (main int_ascii 1 (steady_world (fun _ => all_fine))
           ["TempHumidityMonitor.py"; "-ascii"; "-b2400"]) =
      EvInstrument "/dev/ttyUSB0" SLAVE_ADDRESS MODE_ASCII
        :: EvSetTimeout TIMEOUT :: rest.
Proof.
  exact (proj1
    (timeout_is_one_constant int_ascii 1 (steady_world (fun _ => all_fine))
       ["TempHumidityMonitor.py"; "-ascii"; "-b2400"]
       "/dev/ttyUSB0" MODE_ASCII 2400 eq_refl eq_refl)).
Defined.

(** * Further properties of the command line *)

Lemma slice_from_flag a b rest :
  slice_from 2 (String a (String b rest)) = rest.
Proof.
  unfold slice_from, len. cbn.
  rewrite Nat.sub_0_r.
  induction rest as [ | c rest IH ]; cbn; [ reflexivity | ].
  rewrite IH. reflexivity.
Qed.

Lemma startswith_flag a b rest :
  startswith (String a (String b rest)) (String a (String b EmptyString))
  = true.
Proof.
  unfold startswith. cbn [String.prefix].
  destruct (ascii_dec a a); [ | congruence ].
  destruct (ascii_dec b b); [ | congruence ].
  destruct rest; reflexivity.
Qed.

Lemma rtu_is_not_ascii a :
  startswith a "-rtu" = true -> startswith a "-ascii" = false.
Proof.
  unfold startswith.
  destruct a as [ | c1 [ | c2 rest ] ]; cbn [String.prefix];
    try discriminate.
  - destruct (ascii_dec "-" c1); discriminate.
  - destruct (ascii_dec "-" c1); [ | discriminate ].
    destruct (ascii_dec "r" c2); [ subst c2 | discriminate ].
    intros _. destruct (ascii_dec "a" "r"); [ discriminate | reflexivity ].
Qed.

Section CommandLineExtras.

Variable int : string -> option Z.

Lemma parse_arg_ascii arg l :
  startswith arg "-ascii" = true ->
  parse_arg int arg l = ([], set_mode MODE_ASCII l, Ok tt).
Proof. intros H. unfold parse_arg. rewrite H. reflexivity. Qed.

Lemma parse_arg_rtu arg l :
  startswith arg "-ascii" = false -> startswith arg "-rtu" = true ->
  parse_arg int arg l = ([], set_mode MODE_RTU l, Ok tt).
Proof. intros H1 H2. unfold parse_arg. rewrite H1, H2. reflexivity. Qed.

Lemma for_each_skips_unrecognized argv :
  forall l,
    for_each argv (parse_arg int) l =
    for_each (filter recognized argv) (parse_arg int) l.
Proof.
  induction argv as [ | arg rest IH ]; intros l; cbn [filter].
  - reflexivity.
  - destruct (recognized arg) eqn:R.
    + rewrite !for_each_cons.
      destruct (parse_arg int arg l) as [[t l'] [[] | e]];
        [ rewrite IH | ]; reflexivity.
    + rewrite for_each_cons, (parse_arg_unrecognized int arg l R), IH.
      destruct (for_each (filter recognized rest) (parse_arg int) l)
        as [[t' l''] r].
      reflexivity.
Qed.

(** What the loop over the arguments leaves when [parse_commandline]
    returns. *)
Lemma parse_ok_locals argv p m b :
  snd (parse_commandline int argv) = Ok (p, m, b) ->
  for_each argv (parse_arg int) parse_start =
    ([], {| mode := m; baudrate := b; portname := p |}, Ok tt).
Proof.
  unfold parse_commandline. fold parse_start.
  destruct (for_each_arg_cases int argv parse_start)
    as [[l' E] | [(u & l' & _ & E) | [l' E]]];
    rewrite E; cbn [snd]; try discriminate.
  destruct l' as [m' b' p']. cbn.
  intros H; injection H; intros; subst. reflexivity.
Qed.

(** One more argument after a list that parses. *)
Lemma parse_one_more argv a p m b :
  snd (parse_commandline int argv) = Ok (p, m, b) ->
  parse_commandline int (argv ++ [a]) =
    match parse_arg int a {| mode := m; baudrate := b; portname := p |} with
    | (t, l, Ok _) => (t, Ok (portname l, mode l, baudrate l))
    | (t, _, Raise e) => (t, Raise e)
    end.
Proof.
  intros Hp. unfold parse_commandline. fold parse_start.
  rewrite for_each_app, (parse_ok_locals argv p m b Hp), for_each_cons.
  destruct (parse_arg int a _) as [[t l] [[] | e]]; cbn;
    rewrite ?app_nil_r; reflexivity.
Qed.

(** X1: arguments that start with none of the four flags, the script
    name among them, have no effect at all on what [parse_commandline]
    prints and returns. *)
Theorem unrecognized_arguments_are_ignored argv :
  parse_commandline int argv =
  parse_commandline int (filter recognized argv).
Proof.
  unfold parse_commandline.
  rewrite (for_each_skips_unrecognized argv). reflexivity.
Qed.

(** X2: a mode flag at the end of a command line that parses sets the
    mode, whatever mode was chosen before and whatever follows the flag
    inside the argument, and leaves port and baud rate as they were. *)
Theorem later_mode_flag_wins argv a p m b :
  snd (parse_commandline int argv) = Ok (p, m, b) ->
  (startswith a "-ascii" = true ->
   parse_commandline int (argv ++ [a]) = ([], Ok (p, MODE_ASCII, b))) /\
  (startswith a "-rtu" = true ->
   parse_commandline int (argv ++ [a]) = ([], Ok (p, MODE_RTU, b))).
Proof.
  intros Hp. split; intros Ha; rewrite (parse_one_more argv a p m b Hp).
  - rewrite (parse_arg_ascii a _ Ha). reflexivity.
  - rewrite (parse_arg_rtu a _ (rtu_is_not_ascii a Ha) Ha). reflexivity.
Qed.

(** X3: "-b" followed by a non-empty text that [int] accepts, at the end
    of a command line that parses, sets the baud rate to that integer,
    unchecked, and leaves port and mode as they were. *)
Theorem later_baud_flag_wins argv digits n p m b :
  snd (parse_commandline int argv) = Ok (p, m, b) ->
  digits <> "" ->
  int digits = Some n ->
  parse_commandline int (argv ++ [String "-" (String "b" digits)]) =
    ([], Ok (p, m, n)).
Proof.
  intros Hp Hne Hint.
  rewrite (parse_one_more argv _ p m b Hp).
  rewrite (parse_arg_b int (String "-" (String "b" digits)))
    by apply startswith_flag.
  destruct (len (String "-" (String "b" digits)) <? 3)%nat eqn:Hlen.
  - apply short_flag_alone in Hlen. contradiction.
  - rewrite slice_from_flag, Hint. reflexivity.
Qed.

(** X4: "-D" followed by a non-empty path, at the end of a command line
    that parses, sets the port name to exactly that path and leaves mode
    and baud rate as they were. *)
Theorem later_port_flag_wins argv path p m b :
  snd (parse_commandline int argv) = Ok (p, m, b) ->
  path <> "" ->
  parse_commandline int (argv ++ [String "-" (String "D" path)]) =
    ([], Ok (path, m, b)).
Proof.
  intros Hp Hne.
  rewrite (parse_one_more argv _ p m b Hp).
  rewrite (parse_arg_D int (String "-" (String "D" path)))
    by apply startswith_flag.
  destruct (len (String "-" (String "D" path)) <? 3)%nat eqn:Hlen.
  - apply short_flag_alone in Hlen. contradiction.
  - rewrite slice_from_flag. reflexivity.
Qed.

End CommandLineExtras.

Lemma later_mode_flag_wins_witness :
  parse_commandline int_ascii
    (["TempHumidityMonitor.py"; "-rtu"; "-b9600"] ++ ["-ascii-mode"]) =
  ([], Ok ("/dev/ttyUSB0", MODE_ASCII, 9600)).
Proof.
  exact (proj1 (later_mode_flag_wins int_ascii
                  ["TempHumidityMonitor.py"; "-rtu"; "-b9600"] "-ascii-mode"
                  "/dev/ttyUSB0" MODE_RTU 9600 eq_refl) eq_refl).
Defined.

Lemma later_baud_flag_wins_witness :
  parse_commandline int_ascii
    (["TempHumidityMonitor.py"; "-b9600"; "-ascii"] ++ ["-b2400"]) =
  ([], Ok ("/dev/ttyUSB0", MODE_ASCII, 2400)).
Proof.
  refine (later_baud_flag_wins int_ascii
            ["TempHumidityMonitor.py"; "-b9600"; "-ascii"] "2400" 2400
            "/dev/ttyUSB0" MODE_ASCII 9600 eq_refl _ eq_refl).
  discriminate.
Defined.

Lemma later_port_flag_wins_witness :
  parse_commandline int_ascii
    (["TempHumidityMonitor.py"; "-D/dev/ttyS0"] ++ ["-DCOM4"]) =
  ([], Ok ("COM4", MODE_RTU, 115200)).
Proof.
  refine (later_port_flag_wins int_ascii
            ["TempHumidityMonitor.py"; "-D/dev/ttyS0"] "COM4"
            "/dev/ttyS0" MODE_RTU 115200 eq_refl _).
  discriminate.
Defined.

Section CommandLineProvenance.

Variable int : string -> option Z.

(** What one argument that does not end the loop does to the local
    variables. *)
Lemma parse_arg_ok_inv arg l t l1 :
  parse_arg int arg l = (t, l1, Ok tt) ->
  t = [] /\
  (l1 = l \/
   (startswith arg "-ascii" = true /\ l1 = set_mode MODE_ASCII l) \/
   (startswith arg "-rtu" = true /\ l1 = set_mode MODE_RTU l) \/
   (exists n, startswith arg "-b" = true /\
              int (slice_from 2 arg) = Some n /\ l1 = set_baudrate n l) \/
   (exists path, path <> "" /\ arg = String "-" (String "D" path) /\
                 l1 = set_portname path l)).
Proof.
  destruct (startswith arg "-ascii") eqn:Hascii.
  { rewrite (parse_arg_ascii int arg l Hascii).
    intros H; injection H; intros; subst. auto. }
  destruct (startswith arg "-rtu") eqn:Hrtu.
  { rewrite (parse_arg_rtu int arg l Hascii Hrtu).
    intros H; injection H; intros; subst. auto 10. }
  destruct (startswith arg "-b") eqn:Hb.
  { rewrite (parse_arg_b int arg l Hb).
    destruct (len arg <? 3)%nat; [ discriminate | ].
    destruct (int (slice_from 2 arg)) as [n | ] eqn:Hint; [ | discriminate ].
    intros H; injection H; intros; subst. eauto 10. }
  destruct (startswith arg "-D") eqn:HD.
  { rewrite (parse_arg_D int arg l HD).
    destruct (startswith_two _ _ _ HD) as [path ->].
    destruct (len (String "-" (String "D" path)) <? 3)%nat eqn:Hlen;
      [ discriminate | ].
    rewrite slice_from_flag.
    intros H; injection H; intros; subst.
    split; [ reflexivity | ].
    do 4 right. exists path. repeat split.
    intros ->. discriminate Hlen. }
  rewrite (parse_arg_unrecognized int arg l)
    by (unfold recognized; rewrite Hascii, Hrtu, Hb, HD; reflexivity).
  intros H; injection H; intros; subst. auto.
Qed.

(** Each local variable after the loop is the one before it, or was set
    by an argument of the list. *)
Lemma for_each_provenance argv :
  forall l t l',
    for_each argv (parse_arg int) l = (t, l', Ok tt) ->
    (portname l' = portname l \/
     (portname l' <> "" /\
      In (String "-" (String "D" (portname l'))) argv)) /\
    (baudrate l' = baudrate l \/
     exists a, In a argv /\ startswith a "-b" = true /\
               int (slice_from 2 a) = Some (baudrate l')) /\
    (mode l' = mode l \/
     (mode l' = MODE_ASCII /\
      exists a, In a argv /\ startswith a "-ascii" = true) \/
     (mode l' = MODE_RTU /\
      exists a, In a argv /\ startswith a "-rtu" = true)).
Proof.
  induction argv as [ | arg rest IH ]; intros l t l' Hrun.
  - cbn in Hrun. injection Hrun; intros; subst. auto.
  - rewrite for_each_cons in Hrun.
    destruct (parse_arg int arg l) as [[t1 l1] [[] | e1]] eqn:Harg;
      [ | discriminate Hrun ].
    destruct (for_each rest (parse_arg int) l1) as [[t2 l2] [[] | e2]]
      eqn:Hrest; [ | discriminate Hrun ].
    injection Hrun; intros; subst l2 t.
    destruct (IH l1 t2 l' Hrest) as (Hport & Hbaud & Hmode).
    assert (Hport' :
      portname l' = portname l1 \/
      (portname l' <> "" /\
       In (String "-" (String "D" (portname l'))) (arg :: rest))).
    { destruct Hport as [H | [H1 H2]]; [ auto | right; cbn; auto ]. }
    assert (Hbaud' :
      baudrate l' = baudrate l1 \/
      exists a, In a (arg :: rest) /\ startswith a "-b" = true /\
                int (slice_from 2 a) = Some (baudrate l')).
    { destruct Hbaud as [H | (a & Ha & H)];
        [ auto | right; exists a; cbn; tauto ]. }
    assert (Hmode' :
      mode l' = mode l1 \/
      (mode l' = MODE_ASCII /\
       exists a, In a (arg :: rest) /\ startswith a "-ascii" = true) \/
      (mode l' = MODE_RTU /\
       exists a, In a (arg :: rest) /\ startswith a "-rtu" = true)).
    { destruct Hmode as [H | [[H (a & Ha & Hs)] | [H (a & Ha & Hs)]]];
        [ auto | right; left | right; right ];
        (split; [ exact H | exists a; cbn; auto ]). }
    clear Hport Hbaud Hmode IH Hrest.
    destruct (parse_arg_ok_inv arg l t1 l1 Harg)
      as [_ [-> | [[Hs ->] | [[Hs ->] | [(n & Hs & Hn & ->)
                                        | (path & Hne & -> & ->)]]]]];
      cbn [set_mode set_baudrate set_portname mode baudrate portname]
        in Hport', Hbaud', Hmode'.
    + auto.
    + split; [ exact Hport' | split; [ exact Hbaud' | ] ].
      destruct Hmode' as [H | H]; [ | exact (or_intror H) ].
      right; left. split; [ exact H | ]. exists arg. cbn; auto.
    + split; [ exact Hport' | split; [ exact Hbaud' | ] ].
      destruct Hmode' as [H | H]; [ | exact (or_intror H) ].
      right; right. split; [ exact H | ]. exists arg. cbn; auto.
    + split; [ exact Hport' | split; [ | exact Hmode' ] ].
      destruct Hbaud' as [H | H]; [ | exact (or_intror H) ].
      right. exists arg. rewrite H. cbn; auto.
    + split; [ | split; [ exact Hbaud' | exact Hmode' ] ].
      destruct Hport' as [H | H]; [ | exact (or_intror H) ].
      right. rewrite H. split; [ exact Hne | cbn; auto ].
Qed.

(** X5: [parse_commandline] ends in one of three ways: it returns having
    printed nothing; it exits having printed exactly one of the two usage
    messages; it raises [ValueError] having printed nothing. *)
Theorem parse_commandline_outcomes argv :
  (exists r, parse_commandline int argv = ([], Ok r)) \/
  (exists u, (u = usage_b \/ u = usage_D) /\
             parse_commandline int argv = ([EvPrint u], Raise SystemExit)) \/
  parse_commandline int argv = ([], Raise ValueError).
Proof.
  unfold parse_commandline.
  destruct (for_each_arg_cases int argv
              {| mode := MODE_RTU; baudrate := DEFAULT_BAUDRATE;
                 portname := DEFAULT_PORT_NAME |})
    as [[l' E] | [(u & l' & Hu & E) | [l' E]]]; rewrite E; eauto 10.
Qed.

(** X6: every value [parse_commandline] returns is the default or was
    given by an argument of the list: the port name is "/dev/ttyUSB0" or
    the non-empty rest of a "-D" argument (so it is never empty); the
    baud rate is 115200 or what [int] made of the rest of a "-b"
    argument; and the mode is ASCII only if some argument starts with
    "-ascii". *)
Theorem parsed_values_come_from_flags argv p m b :
  snd (parse_commandline int argv) = Ok (p, m, b) ->
  (p = "/dev/ttyUSB0" \/
   (p <> "" /\ In (String "-" (String "D" p)) argv)) /\
  p <> "" /\
  (b = 115200 \/
   exists a, In a argv /\ startswith a "-b" = true /\
             int (slice_from 2 a) = Some b) /\
  (m = MODE_ASCII ->
   exists a, In a argv /\ startswith a "-ascii" = true).
Proof.
  intros Hp.
  pose proof (parse_ok_locals int argv p m b Hp) as Hrun.
  destruct (for_each_provenance argv _ _ _ Hrun) as (Hport & Hbaud & Hmode).
  cbn [mode baudrate portname parse_start] in Hport, Hbaud, Hmode.
  split; [ exact Hport | split; [ | split; [ exact Hbaud | ] ] ].
  - destruct Hport as [-> | [H _]]; [ discriminate | exact H ].
  - intros ->.
    destruct Hmode as [H | [[_ H] | [H _]]];
      [ discriminate H | exact H | discriminate H ].
Qed.

End CommandLineProvenance.

Lemma parsed_values_come_from_flags_witness :
  "COM4" = "/dev/ttyUSB0" \/
  ("COM4" <> "" /\
   In "-DCOM4" ["TempHumidityMonitor.py"; "-DCOM4"; "-b9600"]).
Proof.
  exact (proj1
    (parsed_values_come_from_flags int_ascii
       ["TempHumidityMonitor.py"; "-DCOM4"; "-b9600"]
       "COM4" MODE_RTU 9600 eq_refl)).
Defined.

(** * Further properties of [main] *)

Section Startup.

Variable int : string -> option Z.

(** [main], by the answers to its four calls before the loop. *)
Lemma main_by_setup fuel env argv p m b :
  snd (parse_commandline int argv) = Ok (p, m, b) ->
  main int fuel env argv =
    match Instrument_result env p SLAVE_ADDRESS m with
    | Raise e => ([EvInstrument p SLAVE_ADDRESS m], Raised e)
    | Ok false =>
        ([EvInstrument p SLAVE_ADDRESS m;
          EvPrint "Instrument.serial is None"], Returned)
    | Ok true =>
        match set_timeout_result env TIMEOUT with
        | Raise e =>
            ([EvInstrument p SLAVE_ADDRESS m; EvSetTimeout TIMEOUT],
             Raised e)
        | Ok _ =>
            match set_baudrate_result env b with
            | Raise e =>
                ([EvInstrument p SLAVE_ADDRESS m; EvSetTimeout TIMEOUT;
                  EvSetBaudrate b], Raised e)
            | Ok _ =>
                match DHT11_result env DHT_PIN with
                | Raise e =>
                    ([EvInstrument p SLAVE_ADDRESS m; EvSetTimeout TIMEOUT;
                      EvSetBaudrate b; EvDHT11 DHT_PIN], Raised e)
                | Ok _ =>
                    ([EvInstrument p SLAVE_ADDRESS m; EvSetTimeout TIMEOUT;
                      EvSetBaudrate b; EvDHT11 DHT_PIN] ++
                     fst (behaviour (polling_loop fuel env 0 unbound)),
                     snd (behaviour (polling_loop fuel env 0 unbound)))
                end
            end
        end
    end.
Proof.
  intros Hp.
  assert (Hparse : parse_commandline int argv = ([], Ok (p, m, b))).
  { destruct (parse_commandline_outcomes int argv)
      as [[r E] | [(u & _ & E) | E]]; rewrite E in *; cbn in Hp;
      try discriminate Hp.
    rewrite Hp. reflexivity. }
  unfold main, before_loop, lift, bind, call, print, ret.
  rewrite Hparse. cbn [fst snd app].
  destruct (Instrument_result env p SLAVE_ADDRESS m) as [[ | ] | e1];
    cbn [negb app]; [ | reflexivity | reflexivity ].
  destruct (set_timeout_result env TIMEOUT) as [[] | e2]; cbn [app];
    [ | reflexivity ].
  destruct (set_baudrate_result env b) as [[] | e3]; cbn [app];
    [ | reflexivity ].
  destruct (DHT11_result env DHT_PIN) as [[] | e4]; cbn [app];
    [ | reflexivity ].
  unfold polling_loop, behaviour, unbound.
  destruct (while_true fuel _ 0%nat _) as [[t' l'] o]. reflexivity.
Qed.

Lemma main_without_serial fuel env argv p m b :
  snd (parse_commandline int argv) = Ok (p, m, b) ->
  Instrument_result env p SLAVE_ADDRESS m = Ok false ->
  main int fuel env argv =
    ([EvInstrument p SLAVE_ADDRESS m; EvPrint "Instrument.serial is None"],
     Returned).
Proof.
  intros Hp Hi. rewrite (main_by_setup fuel env argv p m b Hp), Hi.
  reflexivity.
Qed.

(** X7: [main] returns in one case only, when the instrument comes
    without a serial port; it has then printed one line and has set
    neither timeout nor baud rate, constructed no sensor and entered no
    loop.  In every other run it is still in its loop or has ended with
    an exception. *)
Theorem main_returns_only_without_serial fuel env argv :
  snd (main int fuel env argv) = Returned <->
  exists p m b,
    snd (parse_commandline int argv) = Ok (p, m, b) /\
    Instrument_result env p SLAVE_ADDRESS m = Ok false /\
    fst (main int fuel env argv) =
      [EvInstrument p SLAVE_ADDRESS m; EvPrint "Instrument.serial is None"].
Proof.
  split.
  - intros Hret.
    destruct (parse_commandline_outcomes int argv)
      as [[[[p m] b] E] | [(u & _ & E) | E]].
    + assert (Hp : snd (parse_commandline int argv) = Ok (p, m, b))
        by (rewrite E; reflexivity).
      exists p, m, b. split; [ exact Hp | ].
      assert (Hi : Instrument_result env p SLAVE_ADDRESS m = Ok false).
      { rewrite (main_by_setup fuel env argv p m b Hp) in Hret.
        destruct (Instrument_result env p SLAVE_ADDRESS m) as [[ | ] | e1];
          [ | reflexivity | discriminate Hret ].
        destruct (set_timeout_result env TIMEOUT) as [[] | e2];
          [ | discriminate Hret ].
        destruct (set_baudrate_result env b) as [[] | e3];
          [ | discriminate Hret ].
        destruct (DHT11_result env DHT_PIN) as [[] | e4];
          [ | discriminate Hret ].
        cbn [snd behaviour] in Hret.
        destruct (polling_loop_never_returns fuel env 0 unbound Hret). }
      split; [ exact Hi | ].
      rewrite (main_without_serial fuel env argv p m b Hp Hi). reflexivity.
    + rewrite (main_stops_at_parse int fuel env argv SystemExit) in Hret
        by (rewrite E; reflexivity).
      discriminate Hret.
    + rewrite (main_stops_at_parse int fuel env argv ValueError) in Hret
        by (rewrite E; reflexivity).
      discriminate Hret.
  - intros (p & m & b & Hp & Hi & _).
    rewrite (main_without_serial fuel env argv p m b Hp Hi).
    reflexivity.
Qed.

(** X8: an exception raised while [main] sets up (by the constructor of
    the instrument, by either assignment to the serial port, by the
    constructor of the sensor) ends [main] on the spot, whatever its
    class: the handler for [RuntimeError] covers the loop body only. *)
Theorem setup_errors_are_fatal fuel env argv p m b e :
  snd (parse_commandline int argv) = Ok (p, m, b) ->
  (Instrument_result env p SLAVE_ADDRESS m = Raise e ->
   main int fuel env argv = ([EvInstrument p SLAVE_ADDRESS m], Raised e)) /\
  (Instrument_result env p SLAVE_ADDRESS m = Ok true ->
   set_timeout_result env TIMEOUT = Raise e ->
   main int fuel env argv =
     ([EvInstrument p SLAVE_ADDRESS m; EvSetTimeout TIMEOUT], Raised e)) /\
  (Instrument_result env p SLAVE_ADDRESS m = Ok true ->
   set_timeout_result env TIMEOUT = Ok tt ->
   set_baudrate_result env b = Raise e ->
   main int fuel env argv =
     ([EvInstrument p SLAVE_ADDRESS m; EvSetTimeout TIMEOUT;
       EvSetBaudrate b], Raised e)) /\
  (Instrument_result env p SLAVE_ADDRESS m = Ok true ->
   set_timeout_result env TIMEOUT = Ok tt ->
   set_baudrate_result env b = Ok tt ->
   DHT11_result env DHT_PIN = Raise e ->
   main int fuel env argv =
     ([EvInstrument p SLAVE_ADDRESS m; EvSetTimeout TIMEOUT;
       EvSetBaudrate b; EvDHT11 DHT_PIN], Raised e)).
Proof.
  intros Hp. rewrite (main_by_setup fuel env argv p m b Hp).
  repeat split.
  - intros ->. reflexivity.
  - intros -> ->. reflexivity.
  - intros -> -> ->. reflexivity.
  - intros -> -> -> ->. reflexivity.
Qed.

End Startup.

Lemma setup_errors_are_fatal_witness :
  main int_ascii 3
    {| Instrument_result := fun _ _ _ => Ok true;
       set_timeout_result := fun _ => Ok tt;
       set_baudrate_result := fun _ => Ok tt;
       DHT11_result := fun _ => Raise RuntimeError;
       cycle_of := fun _ => all_fine |}
    ["TempHumidityMonitor.py"] =
  ([EvInstrument "/dev/ttyUSB0" SLAVE_ADDRESS MODE_RTU; EvSetTimeout TIMEOUT;
    EvSetBaudrate 115200; EvDHT11 DHT_PIN], Raised RuntimeError).
Proof.
  exact (proj2 (proj2 (proj2
    (setup_errors_are_fatal int_ascii 3
       {| Instrument_result := fun _ _ _ => Ok true;
          set_timeout_result := fun _ => Ok tt;
          set_baudrate_result := fun _ => Ok tt;
          DHT11_result := fun _ => Raise RuntimeError;
          cycle_of := fun _ => all_fine |}
       ["TempHumidityMonitor.py"] "/dev/ttyUSB0" MODE_RTU 115200
       RuntimeError eq_refl))) eq_refl eq_refl eq_refl eq_refl).
Defined.

(** * Further properties of the loop *)

(** Passes [i .. i+n-1] in which every call returns. *)
Lemma steady_loop env (t h : nat -> value) n :
  forall i l,
    (forall j, (i <= j < i + n)%nat ->
       sample (cycle_of env j) = Ok (t j, h j) /\
       write_register_result (cycle_of env j) TEMP_ADDRESS (t j) = Ok tt /\
       write_register_result (cycle_of env j) HUMIDITY_ADDRESS (h j) = Ok tt /\
       sleep_result (cycle_of env j) = Ok tt) ->
    behaviour (polling_loop n env i l) =
      (flat_map (fun j => full_pass (t j) (h j)) (seq i n), Running).
Proof.
  induction n as [ | n IH ]; intros i l Hfine.
  - reflexivity.
  - destruct (Hfine i ltac:(lia)) as (Hs & H1 & H2 & H3).
    pose proof (pass_published (cycle_of env i) l _ _ Hs H1 H2) as Hpass.
    rewrite H3 in Hpass.
    rewrite polling_loop_continues by (rewrite Hpass; reflexivity).
    rewrite IH by (intros j Hj; apply Hfine; lia).
    rewrite Hpass. reflexivity.
Qed.

(** X9: in a run where the setup succeeds and every call of the first
    [n] passes returns, [main] makes its four setup calls in the order
    instrument, timeout, baud rate, sensor, then one full pass after the
    other (read temperature, read humidity, write 106, write 306, sleep
    2.0), each pass writing the values read in that pass; after [n]
    passes it is still running. *)
Theorem steady_run int n env argv p m b (t h : nat -> value) :
  snd (parse_commandline int argv) = Ok (p, m, b) ->
  Instrument_result env p SLAVE_ADDRESS m = Ok true ->
  set_timeout_result env TIMEOUT = Ok tt ->
  set_baudrate_result env b = Ok tt ->
  DHT11_result env DHT_PIN = Ok tt ->
  (forall j, (j < n)%nat ->
     sample (cycle_of env j) = Ok (t j, h j) /\
     write_register_result (cycle_of env j) TEMP_ADDRESS (t j) = Ok tt /\
     write_register_result (cycle_of env j) HUMIDITY_ADDRESS (h j) = Ok tt /\
     sleep_result (cycle_of env j) = Ok tt) ->
  main int n env argv =
    ([EvInstrument p SLAVE_ADDRESS m; EvSetTimeout TIMEOUT;
      EvSetBaudrate b; EvDHT11 DHT_PIN] ++
     flat_map (fun j => full_pass (t j) (h j)) (seq 0 n),
     Running).
Proof.
  intros Hp Hi Ht Hb Hd Hfine.
  rewrite (main_by_setup int n env argv p m b Hp), Hi, Ht, Hb, Hd.
  rewrite (steady_loop env t h n 0 unbound)
    by (intros j Hj; apply Hfine; lia).
  reflexivity.
Qed.

Lemma steady_run_witness :
  main int_ascii 2 (steady_world (fun _ => all_fine))
       ["TempHumidityMonitor.py"; "-b9600"] =
    ([EvInstrument "/dev/ttyUSB0" SLAVE_ADDRESS MODE_RTU; EvSetTimeout TIMEOUT;
      EvSetBaudrate 9600; EvDHT11 DHT_PIN] ++
     flat_map (fun _ => full_pass (VInt 23) (VInt 41)) (seq 0 2),
     Running).
Proof.
  refine (steady_run int_ascii 2 (steady_world (fun _ => all_fine))
            ["TempHumidityMonitor.py"; "-b9600"] "/dev/ttyUSB0" MODE_RTU 9600
            (fun _ => VInt 23) (fun _ => VInt 41)
            eq_refl eq_refl eq_refl eq_refl eq_refl _).
  intros j _. repeat split.
Defined.

(** X10: the calls of a pass always come in the order temperature,
    humidity, write to 106, write to 306, sleep, and stop at the first
    one that raises: the trace of a pass is a non-empty initial part of
    a full pass, and it is the whole of it exactly when no call before
    the sleep raised. *)
Theorem pass_is_initial_part_of_full_pass w l :
  exists t h n,
    (1 <= n <= 5)%nat /\
    trace_of (loop_body w l) = firstn n (full_pass t h) /\
    (n = 5%nat <-> result_of (try_block w l) = Ok tt).
Proof.
  unfold_pass.
  destruct (temperature_result w) as [t | et]; cbn.
  - destruct (humidity_result w) as [h | eh]; cbn.
    + exists t, h.
      destruct (write_register_result w TEMP_ADDRESS t) as [[] | e1]; cbn.
      * destruct (write_register_result w HUMIDITY_ADDRESS h) as [[] | e2];
          cbn.
        -- exists 5%nat. destruct (sleep_result w); cbn;
             (split; [ lia | split; [ reflexivity | tauto ] ]).
        -- exists 4%nat.
           destruct (isinstance e2 RuntimeError);
             [ | destruct (isinstance e2 PyException) ]; cbn;
             (split; [ lia | split; [ reflexivity | ] ]);
             (split; [ lia | discriminate ]).
      * exists 3%nat.
        destruct (isinstance e1 RuntimeError);
          [ | destruct (isinstance e1 PyException) ]; cbn;
          (split; [ lia | split; [ reflexivity | ] ]);
          (split; [ lia | discriminate ]).
    + exists t, VNone, 2%nat.
      destruct (isinstance eh RuntimeError);
        [ | destruct (isinstance eh PyException) ]; cbn;
        (split; [ lia | split; [ reflexivity | ] ]);
        (split; [ lia | discriminate ]).
  - exists VNone, VNone, 1%nat.
    destruct (isinstance et RuntimeError);
      [ | destruct (isinstance et PyException) ]; cbn;
      (split; [ lia | split; [ reflexivity | ] ]);
      (split; [ lia | discriminate ]).
Qed.

(** ** The order of the two writes over a whole run *)

Lemma humidity_after_temperature_weaken p tr :
  humidity_after_temperature false tr = true ->
  humidity_after_temperature p tr = true.
Proof.
  destruct tr as [ | ev rest ]; cbn; [ reflexivity | ].
  intros H. apply andb_true_iff in H. destruct H as [H1 H2].
  rewrite orb_false_r in H1. rewrite H1, H2. reflexivity.
Qed.

Lemma humidity_after_temperature_app A B :
  forall p,
    humidity_after_temperature p A = true ->
    humidity_after_temperature false B = true ->
    humidity_after_temperature p (A ++ B) = true.
Proof.
  induction A as [ | ev A IH ]; intros p HA HB; cbn [app].
  - apply humidity_after_temperature_weaken. exact HB.
  - cbn in *. apply andb_true_iff in HA. destruct HA as [H1 H2].
    rewrite H1. cbn. apply IH; assumption.
Qed.

Lemma humidity_after_temperature_pass w l :
  humidity_after_temperature false (trace_of (loop_body w l)) = true.
Proof.
  unfold_pass.
  destruct (temperature_result w) as [t | et]; cbn.
  - destruct (humidity_result w) as [h | eh]; cbn.
    + destruct (write_register_result w TEMP_ADDRESS t) as [[] | e1]; cbn.
      * destruct (write_register_result w HUMIDITY_ADDRESS h) as [[] | e2];
          cbn.
        -- destruct (sleep_result w); reflexivity.
        -- destruct (isinstance e2 RuntimeError);
             [ | destruct (isinstance e2 PyException) ]; reflexivity.
      * destruct (isinstance e1 RuntimeError);
          [ | destruct (isinstance e1 PyException) ]; reflexivity.
    + destruct (isinstance eh RuntimeError);
        [ | destruct (isinstance eh PyException) ]; reflexivity.
  - destruct (isinstance et RuntimeError);
      [ | destruct (isinstance et PyException) ]; reflexivity.
Qed.

Lemma humidity_after_temperature_loop fuel env :
  forall i l,
    humidity_after_temperature false
      (fst (behaviour (polling_loop fuel env i l))) = true.
Proof.
  induction fuel as [ | fuel IH ]; intros i l.
  - reflexivity.
  - pose proof (humidity_after_temperature_pass (cycle_of env i) l) as Hpass.
    destruct (result_of (loop_body (cycle_of env i) l)) as [[] | e] eqn:Hr.
    + rewrite (polling_loop_continues fuel env i l Hr). cbn [fst].
      apply humidity_after_temperature_app; [ exact Hpass | apply IH ].
    + rewrite (polling_loop_stops fuel env i l e Hr). exact Hpass.
Qed.

Lemma humidity_after_temperature_main int fuel env argv :
  humidity_after_temperature false (fst (main int fuel env argv)) = true.
Proof.
  destruct (parse_commandline_outcomes int argv)
    as [[[[p m] b] E] | [(u & _ & E) | E]].
  - rewrite (main_by_setup int fuel env argv p m b)
      by (rewrite E; reflexivity).
    destruct (Instrument_result env p SLAVE_ADDRESS m) as [[ | ] | e1];
      [ | reflexivity | reflexivity ].
    destruct (set_timeout_result env TIMEOUT) as [[] | e2];
      [ | reflexivity ].
    destruct (set_baudrate_result env b) as [[] | e3]; [ | reflexivity ].
    destruct (DHT11_result env DHT_PIN) as [[] | e4]; [ | reflexivity ].
    cbn [fst]. apply humidity_after_temperature_app;
      [ reflexivity | apply humidity_after_temperature_loop ].
  - rewrite (main_stops_at_parse int fuel env argv SystemExit)
      by (rewrite E; reflexivity).
    rewrite E. reflexivity.
  - rewrite (main_stops_at_parse int fuel env argv ValueError)
      by (rewrite E; reflexivity).
    rewrite E. reflexivity.
Qed.

(** What the check says about a trace that holds a write to
    [HUMIDITY_ADDRESS]. *)
Lemma humidity_after_temperature_sound tr :
  forall p pre hv post,
    humidity_after_temperature p tr = true ->
    tr = pre ++ EvWriteRegister HUMIDITY_ADDRESS hv :: post ->
    (pre = [] /\ p = true) \/
    exists pre' tv, pre = pre' ++ [EvWriteRegister TEMP_ADDRESS tv].
Proof.
  induction tr as [ | ev rest IH ]; intros p pre hv post Hcheck Heq.
  - destruct pre; discriminate Heq.
  - cbn in Hcheck. apply andb_true_iff in Hcheck.
    destruct Hcheck as [H1 H2].
    destruct pre as [ | e0 pre1 ]; cbn [app] in Heq;
      injection Heq; intros Hrest Hev; subst ev.
    + left. split; [ reflexivity | ].
      cbn in H1. rewrite Z.eqb_refl in H1. exact H1.
    + right.
      destruct (IH _ pre1 hv post H2 Hrest)
        as [[-> Htemp] | (pre' & tv & ->)].
      * destruct e0 as [ | | | | | | | a v | ]; try discriminate Htemp.
        cbn in Htemp. apply Z.eqb_eq in Htemp. subst a.
        exists [], v. reflexivity.
      * exists (e0 :: pre'), tv. reflexivity.
Qed.

(** X11: in every run, whatever the command line and the outside world,
    a write to the humidity register comes directly after a write to
    the temperature register: the humidity is never published ahead of,
    or without, the temperature of the same pass. *)
Theorem humidity_write_follows_temperature_write
    int fuel env argv pre hv post :
  fst (main int fuel env argv) =
    pre ++ EvWriteRegister HUMIDITY_ADDRESS hv :: post ->
  exists pre' tv, pre = pre' ++ [EvWriteRegister TEMP_ADDRESS tv].
Proof.
  intros Heq.
  destruct (humidity_after_temperature_sound _ false pre hv post
              (humidity_after_temperature_main int fuel env argv) Heq)
    as [[_ H] | H]; [ discriminate H | exact H ].
Qed.

Lemma humidity_write_follows_temperature_write_witness :
  exists pre' tv,
    [EvInstrument "/dev/ttyUSB0" SLAVE_ADDRESS MODE_RTU; EvSetTimeout TIMEOUT;
     EvSetBaudrate 115200; EvDHT11 DHT_PIN; EvTemperature; EvHumidity;
     EvWriteRegister TEMP_ADDRESS (VInt 23)] =
    pre' ++ [EvWriteRegister TEMP_ADDRESS tv].
Proof.
  exact (humidity_write_follows_temperature_write int_ascii 1
           (steady_world (fun _ => all_fine)) ["TempHumidityMonitor.py"]
           [EvInstrument "/dev/ttyUSB0" SLAVE_ADDRESS MODE_RTU;
            EvSetTimeout TIMEOUT; EvSetBaudrate 115200; EvDHT11 DHT_PIN;
            EvTemperature; EvHumidity; EvWriteRegister TEMP_ADDRESS (VInt 23)]
           (VInt 41) [EvSleep SLEEP_SECONDS] eq_refl).
Defined.

(** ** How the loop ends, and when it does not *)

(** X12: the loop ends only with an exception that one of the calls of
    some pass raised, every pass before it having returned; and that
    exception is no [RuntimeError], unless it was the sleep that raised
    it.  The loop raises nothing of its own: the local variables it
    reads are always bound. *)
Theorem loop_ends_only_by_library_exception fuel env :
  forall i l e,
    snd (polling_loop fuel env i l) = Raised e ->
    exists j,
      (i <= j < i + fuel)%nat /\
      raises_in_pass (cycle_of env j) e /\
      (isinstance e RuntimeError = false \/
       sleep_result (cycle_of env j) = Raise e) /\
      (forall k l', (i <= k < j)%nat ->
                    result_of (loop_body (cycle_of env k) l') = Ok tt).
Proof.
  induction fuel as [ | fuel IH ]; intros i l e Hend.
  - discriminate Hend.
  - rewrite polling_loop_step in Hend.
    destruct (loop_body (cycle_of env i) l) as [[t l'] [[] | e']] eqn:Hpass.
    + specialize (IH (S i) l' e).
      destruct (polling_loop fuel env (S i) l') as [[t' l''] o].
      cbn [snd] in Hend, IH.
      destruct (IH Hend) as (j & Hj & Hin & Hcls & Hbefore).
      exists j. split; [ lia | split; [ exact Hin | split; [ exact Hcls | ] ] ].
      intros k l0 Hk.
      destruct (Nat.eq_dec k i) as [-> | Hne].
      * pose proof (pass_locals_irrelevant (cycle_of env i) l0 l) as Hsame.
        rewrite Hpass in Hsame. unfold behaviour, result_of in *.
        cbn [fst snd] in Hsame. injection Hsame; intros; assumption.
      * apply Hbefore. lia.
    + cbn [snd] in Hend. injection Hend; intros; subst e'.
      assert (Hr : result_of (loop_body (cycle_of env i) l) = Raise e)
        by (rewrite Hpass; reflexivity).
      destruct (pass_raise_inv _ _ _ Hr)
        as [Hin [Hcls | (tv & hv & _ & _ & _ & Hsl)]];
        exists i; (split; [ lia | split; [ exact Hin | split; [ auto | ] ] ]);
        intros k l0 Hk; lia.
Qed.

Lemma loop_ends_only_by_library_exception_witness :
  exists j,
    (0 <= j < 0 + 3)%nat /\
    raises_in_pass
      (if Nat.eqb j 1 then temperature_raises OSError else all_fine)
      OSError.
Proof.
  destruct (loop_ends_only_by_library_exception 3
              (steady_world
                 (fun j => if Nat.eqb j 1 then temperature_raises OSError
                           else all_fine))
              0 unbound OSError eq_refl)
    as (j & Hj & Hin & _).
  exists j. split; [ exact Hj | exact Hin ].
Defined.

(** X13: while the sleep returns and the other calls raise nothing but
    [RuntimeError]s, the loop never ends, however many passes it has
    made. *)
Theorem loop_runs_while_errors_are_transient fuel env :
  (forall j, sleep_result (cycle_of env j) = Ok tt) ->
  (forall j e, raises_in_pass (cycle_of env j) e ->
               isinstance e RuntimeError = true) ->
  forall i l, snd (polling_loop fuel env i l) = Running.
Proof.
  intros Hsleep Htransient.
  induction fuel as [ | fuel IH ]; intros i l.
  - reflexivity.
  - rewrite polling_loop_step.
    destruct (loop_body (cycle_of env i) l) as [[t l'] [[] | e]] eqn:Hpass.
    + specialize (IH (S i) l').
      destruct (polling_loop fuel env (S i) l') as [[t' l''] o].
      exact IH.
    + exfalso.
      assert (Hr : result_of (loop_body (cycle_of env i) l) = Raise e)
        by (rewrite Hpass; reflexivity).
      destruct (pass_raise_inv _ _ _ Hr)
        as [Hin [Hcls | (tv & hv & _ & _ & _ & Hsl)]].
      * rewrite (Htransient i e Hin) in Hcls. discriminate Hcls.
      * rewrite (Hsleep i) in Hsl. discriminate Hsl.
Qed.

Lemma loop_runs_while_errors_are_transient_witness :
  snd (polling_loop 4
         (steady_world
            (fun j => if Nat.even j then humidity_raises RuntimeError
                      else write_raises TEMP_ADDRESS NotImplementedError))
         0 unbound) = Running.
Proof.
  refine (loop_runs_while_errors_are_transient 4
            (steady_world
               (fun j => if Nat.even j then humidity_raises RuntimeError
                         else write_raises TEMP_ADDRESS NotImplementedError))
            _ _ 0%nat unbound).
  - intros j. cbn. destruct (Nat.even j); reflexivity.
  - intros j e. cbn. destruct (Nat.even j).
    + intros [H | t H1 H2 | t h H _ | t h H _ _ | t h H _ _ _];
        cbn in *; try discriminate.
      injection H2; intros; subst; reflexivity.
    + intros [H | t H1 H2 | t h H Hw | t h H H1 _ | t h H H1 _ _];
        cbn in *; try discriminate.
      injection H; intros; subst. cbn in Hw.
      injection Hw; intros; subst; reflexivity.
Defined.

(** ** What is printed *)

(** X14: all [main] ever prints is one of the two usage messages or the
    line about the missing serial port; the loop prints nothing, so an
    absorbed [RuntimeError] leaves no message. *)
Theorem only_startup_prints int fuel env argv s :
  In (EvPrint s) (fst (main int fuel env argv)) ->
  s = usage_b \/ s = usage_D \/ s = "Instrument.serial is None".
Proof.
  destruct (parse_commandline_outcomes int argv)
    as [[[[p m] b] E] | [(u & Hu & E) | E]].
  - rewrite (main_by_setup int fuel env argv p m b)
      by (rewrite E; reflexivity).
    assert (Hsetup : forall tr,
      In (EvPrint s)
         ([EvInstrument p SLAVE_ADDRESS m; EvSetTimeout TIMEOUT;
           EvSetBaudrate b; EvDHT11 DHT_PIN] ++ tr) ->
      In (EvPrint s) tr).
    { intros tr [H | [H | [H | [H | H]]]];
        [ discriminate H .. | exact H ]. }
    destruct (Instrument_result env p SLAVE_ADDRESS m) as [[ | ] | e1].
    + destruct (set_timeout_result env TIMEOUT) as [[] | e2];
        [ | intros H; cbn in H; intuition discriminate ].
      destruct (set_baudrate_result env b) as [[] | e3];
        [ | intros H; cbn in H; intuition discriminate ].
      destruct (DHT11_result env DHT_PIN) as [[] | e4];
        [ | intros H; cbn in H; intuition discriminate ].
      cbn [fst]. intros H. apply Hsetup in H.
      destruct (polling_loop_events fuel env 0 unbound _ H) as (j & l & Hl).
      destruct (loop_body_events _ _ _ Hl)
        as [H' | [H' | [(v & H' & _) | [(v & H' & _) | H']]]];
        discriminate H'.
    + cbn. intros [H | [H | []]]; [ discriminate H | ].
      injection H; intros; subst; auto.
    + cbn. intros [H | []]. discriminate H.
  - rewrite (main_stops_at_parse int fuel env argv SystemExit)
      by (rewrite E; reflexivity).
    rewrite E. cbn. intros [H | []].
    injection H; intros; subst. tauto.
  - rewrite (main_stops_at_parse int fuel env argv ValueError)
      by (rewrite E; reflexivity).
    rewrite E. intros [].
Qed.

Lemma only_startup_prints_witness :
  usage_D = usage_b \/ usage_D = usage_D \/
  usage_D = "Instrument.serial is None".
Proof.
  exact (only_startup_prints int_ascii 1 (steady_world (fun _ => all_fine))
           ["TempHumidityMonitor.py"; "-D"] usage_D (or_introl eq_refl)).
Defined.

(** ** The sleep is outside the [try] statement *)

(** X15: an exception raised by [time.sleep], of whatever class, a
    [RuntimeError] included, is not absorbed: both writes of the pass
    have been made, and the loop ends with that exception. *)
Theorem sleep_error_ends_loop fuel env i l t h e :
  sample (cycle_of env i) = Ok (t, h) ->
  write_register_result (cycle_of env i) TEMP_ADDRESS t = Ok tt ->
  write_register_result (cycle_of env i) HUMIDITY_ADDRESS h = Ok tt ->
  sleep_result (cycle_of env i) = Raise e ->
  behaviour (polling_loop (S fuel) env i l) = (full_pass t h, Raised e).
Proof.
  intros Hs H1 H2 H3.
  pose proof (pass_published (cycle_of env i) l t h Hs H1 H2) as Hpass.
  rewrite H3 in Hpass.
  rewrite (polling_loop_stops fuel env i l e)
    by (rewrite Hpass; reflexivity).
  rewrite Hpass. reflexivity.
Qed.

Lemma sleep_error_ends_loop_witness :
  behaviour
    (polling_loop 3
       (steady_world
          (fun _ => {| temperature_result := Ok (VInt 23);
                       humidity_result := Ok (VInt 41);
                       write_register_result := fun _ _ => Ok tt;
                       sleep_result := Raise RuntimeError |}))
       0 unbound) =
  (full_pass (VInt 23) (VInt 41), Raised RuntimeError).
Proof.
  exact (sleep_error_ends_loop 2
           (steady_world
              (fun _ => {| temperature_result := Ok (VInt 23);
                           humidity_result := Ok (VInt 41);
                           write_register_result := fun _ _ => Ok tt;
                           sleep_result := Raise RuntimeError |}))
           0 unbound (VInt 23) (VInt 41) RuntimeError
           eq_refl eq_refl eq_refl eq_refl).
Defined.
